(** * cgroupv2: the sampling engine of [Monitor]

    A shallow embedding of the Go package [cgroupv2] ([cpu.go], and the
    files that hold [readMemory], [Monitor] and the tests) together with the
    properties of its CPU sampler ([readCPU], [parseCPUStatUsage]) and of its
    memory reader ([readMemory]).

    Conventions of the embedding:
    - a Go [string] is a [string] of Rocq, read as a sequence of bytes;
    - [uint64] and [int64] are [Z], with the range checks and the wrap-around
      written where the source has them;
    - [float64] is IEEE 754 binary64, as [spec_float] at precision 53 and
      maximal exponent 1024, with round-to-nearest-even operations;
    - a Go result [(v, err)] is a pair whose second component is
      [option error], [None] standing for [nil];
    - the file system is a finite map from paths to file contents, a path
      that is not in the map is one that cannot be read;
    - the receiver [m *Monitor] is passed and returned explicitly, and the
      clock reading that [time.Now()] would return is an argument. *)

From Stdlib Require Import ZArith Lia Bool List Ascii String.
From Stdlib Require Import Floats.SpecFloat.
From stdpp Require Import gmap strings.

Local Open Scope string_scope.
Local Open Scope Z_scope.

(** ** Errors *)

Inductive error : Type :=
| ErrRead (path : string)   (* os.ReadFile failed on [path] *)
| ErrSyntax                 (* strconv.ErrSyntax *)
| ErrRange.                 (* strconv.ErrRange *)

Definition isErr (e : option error) : bool :=
  match e with Some _ => true | None => false end.

(** ** The parts of Go's [strings] and [strconv] that the package calls *)

Module GoStrings.

Definition byte (c : ascii) : Z := Z.of_N (N_of_ascii c).

(** The table [asciiSpace] of package [strings]. *)
Definition asciiSpace (c : ascii) : bool :=
  let b := byte c in
  (b =? 9) || (b =? 10) || (b =? 11) || (b =? 12) || (b =? 13) || (b =? 32).

(** UTF-8 encodings, on three bytes, of the runes for which
    [unicode.IsSpace] holds: U+1680, U+2000 to U+200A, U+2028, U+2029,
    U+202F, U+205F and U+3000. *)
Definition isSpace3 (b0 b1 b2 : Z) : bool :=
  ((b0 =? 225) && (b1 =? 154) && (b2 =? 128))
  || ((b0 =? 226) && (b1 =? 128)
      && (((128 <=? b2) && (b2 <=? 138)) || (b2 =? 168) || (b2 =? 169) || (b2 =? 175)))
  || ((b0 =? 226) && (b1 =? 129) && (b2 =? 159))
  || ((b0 =? 227) && (b1 =? 128) && (b2 =? 128)).

(** Number of bytes of the white-space rune at the head of [s], 0 when the
    rune at the head is not white space. The two-byte cases are U+0085 and
    U+00A0. A lead byte is never a continuation byte, so that a decoder
    that walks [s] rune by rune starts a rune at each of these patterns. *)
Definition spaceWidth (s : string) : nat :=
  match s with
  | EmptyString => 0%nat
  | String c0 r0 =>
      if asciiSpace c0 then 1%nat else
      match r0 with
      | EmptyString => 0%nat
      | String c1 r1 =>
          if (byte c0 =? 194) && ((byte c1 =? 133) || (byte c1 =? 160)) then 2%nat else
          match r1 with
          | EmptyString => 0%nat
          | String c2 _ => if isSpace3 (byte c0) (byte c1) (byte c2) then 3%nat else 0%nat
          end
      end
  end.

Definition flush (cur : string) : list string :=
  match cur with
  | EmptyString => []
  | _ => [String.rev cur]
  end.

(** [strings.Fields]: the maximal runs of bytes that belong to no
    white-space rune. [skip] counts the bytes of the current white-space
    rune that remain to be passed, [cur] is the current field, reversed. *)
Fixpoint fieldsAux (skip : nat) (cur : string) (s : string) : list string :=
  match s with
  | EmptyString => flush cur
  | String c r =>
      match skip with
      | S k => fieldsAux k cur r
      | O =>
          match spaceWidth s with
          | O => fieldsAux 0 (String c cur) r
          | S w => flush cur ++ fieldsAux w EmptyString r
          end
      end
  end.

Definition Fields (s : string) : list string := fieldsAux 0 EmptyString s.

Fixpoint allSpaceAux (skip : nat) (s : string) : bool :=
  match s with
  | EmptyString => true
  | String _ r =>
      match skip with
      | S k => allSpaceAux k r
      | O =>
          match spaceWidth s with
          | O => false
          | S w => allSpaceAux w r
          end
      end
  end.

Fixpoint trimLeftAux (skip : nat) (s : string) : string :=
  match s with
  | EmptyString => EmptyString
  | String _ r =>
      match skip with
      | S k => trimLeftAux k r
      | O =>
          match spaceWidth s with
          | O => s
          | S w => trimLeftAux w r
          end
      end
  end.

(** The longest suffix made of white-space runes is dropped. *)
Fixpoint trimRight (s : string) : string :=
  match s with
  | EmptyString => EmptyString
  | String c r => if allSpaceAux 0 s then EmptyString else String c (trimRight r)
  end.

(** [strings.TrimSpace]. *)
Definition TrimSpace (s : string) : string := trimRight (trimLeftAux 0 s).

(** [strings.Split(s, sep)] for a separator of one byte; the package
    splits on the line feed only. *)
Fixpoint Split (s : string) (sep : ascii) : list string :=
  match s with
  | EmptyString => [EmptyString]
  | String c r =>
      if Ascii.eqb c sep then EmptyString :: Split r sep
      else match Split r sep with
           | [] => [String c EmptyString]
           | l :: ls => String c l :: ls
           end
  end.

(** [strings.HasPrefix]. *)
Definition HasPrefix (s pre : string) : bool := String.prefix pre s.

End GoStrings.

Module GoStrconv.
Import GoStrings.

Definition maxUint64 : Z := 2 ^ 64 - 1.

(** The loop of [strconv.ParseUint(s, 10, 64)] over the bytes of [s], from
    the accumulator [n]. In base 10 a letter is a digit that is not below
    the base, a syntax error like any other byte. *)
Fixpoint parseUintLoop (n : Z) (s : string) : Z * option error :=
  match s with
  | EmptyString => (n, None)
  | String c r =>
      let b := byte c in
      if (48 <=? b) && (b <=? 57) then
        let d := b - 48 in
        if n >=? maxUint64 / 10 + 1 then (maxUint64, Some ErrRange)
        else
          let n1 := n * 10 + d in
          if n1 >? maxUint64 then (maxUint64, Some ErrRange)
          else parseUintLoop n1 r
      else (0, Some ErrSyntax)
  end.

(** [strconv.ParseUint(s, 10, 64)]. *)
Definition ParseUint (s : string) : Z * option error :=
  match s with
  | EmptyString => (0, Some ErrSyntax)
  | _ => parseUintLoop 0 s
  end.

(** [strconv.ParseInt(s, 10, 64)]. *)
Definition ParseInt (s : string) : Z * option error :=
  match s with
  | EmptyString => (0, Some ErrSyntax)
  | String c r =>
      let neg := Ascii.eqb c "-" in
      let s' := if Ascii.eqb c "+" || neg then r else s in
      let '(un, err) := ParseUint s' in
      match err with
      | Some ErrRange | None =>
          let cutoff := 2 ^ 63 in
          if negb neg && (un >=? cutoff) then (cutoff - 1, Some ErrRange)
          else if neg && (un >? cutoff) then (- cutoff, Some ErrRange)
          else (if neg then - un else un, None)
      | Some e => (0, Some e)
      end
  end.

End GoStrconv.

(** ** [float64] *)

Module Float64.

Definition float64 : Type := spec_float.

Definition prec : Z := 53.
Definition emax : Z := 1024.

(** The conversions [float64(n)] of an [int64] or an [uint64]: the nearest
    binary64 number, ties to even. *)
Definition ofZ (n : Z) : float64 := binary_normalize prec emax n 0 false.

Definition div (x y : float64) : float64 := SFdiv prec emax x y.
Definition mul (x y : float64) : float64 := SFmul prec emax x y.

(** The constant [0] of a [return 0, ...]. *)
Definition zero : float64 := S754_zero false.

(** Neither an infinity nor a NaN. *)
Definition isFinite (x : float64) : bool :=
  match x with
  | S754_zero _ | S754_finite _ _ _ => true
  | S754_infinity _ | S754_nan => false
  end.

(** The integer that [x] is, when [x] is one. *)
Definition toZ (x : float64) : option Z :=
  match x with
  | S754_zero _ => Some 0
  | S754_finite s m e =>
      let v := if s then Z.neg m else Z.pos m in
      if 0 <=? e then Some (v * 2 ^ e)
      else if v mod 2 ^ (- e) =? 0 then Some (v / 2 ^ (- e)) else None
  | S754_infinity _ | S754_nan => None
  end.

End Float64.

(** ** [time.Time] and [time.Duration] *)

Module GoTime.

(** An instant is the reading of the monotonic clock that [time.Now()]
    attaches to its result, in nanoseconds; [Sub] of two instants that
    carry such a reading compares these readings only. *)
Definition Time : Type := Z.

(** A [Duration] is an [int64] count of nanoseconds. *)
Definition Duration : Type := Z.

Definition minDuration : Duration := - 2 ^ 63.
Definition maxDuration : Duration := 2 ^ 63 - 1.

(** [t.Sub(u)]: the difference, saturated to the range of [Duration]. *)
Definition Sub (t u : Time) : Duration :=
  let d := t - u in
  if d <? minDuration then minDuration
  else if maxDuration <? d then maxDuration
  else d.

(** [d.Microseconds()] is [int64(d) / 1e3], a division that truncates
    toward zero. *)
Definition Microseconds (d : Duration) : Z := Z.quot d 1000.

End GoTime.

(** ** The package *)

Import GoStrings GoStrconv Float64 GoTime.

Definition defaultCgroupPath : string := "/sys/fs/cgroup".
Definition unlimitedValue : string := "max".

(** The line feed, the separator of the lines of [cpu.stat]. *)
Definition LF : ascii := ascii_of_nat 10.

(** The session state of a [Monitor]. The mutex [mu] has no counterpart:
    [readCPU] runs with the lock held, one call at a time. *)
Record Monitor : Type := mkMonitor {
  cgroupPath : string;
  lastCPUUsageUsec : Z;
  lastCPUSampleTime : Time;
  hasBaseline : bool
}.

(** [Stats], the snapshot. *)
Record Stats : Type := mkStats {
  CPUPercent : float64;
  MemoryPercent : float64;
  MemoryBytes : Z;
  MemoryLimitBytes : Z;
  CPULimitCores : float64
}.

(** An [Option] configures a [Monitor]. *)
Definition Option : Type := Monitor -> Monitor.

Definition WithCgroupPath (path : string) : Option :=
  fun m => mkMonitor path (lastCPUUsageUsec m) (lastCPUSampleTime m) (hasBaseline m).

(** [NewMonitor]: the zero value of every field but the path, then the
    options in order. *)
Definition NewMonitor (opts : list Option) : Monitor :=
  fold_left (fun m opt => opt m) opts (mkMonitor defaultCgroupPath 0 0 false).

(** The files that can be read, with their contents. *)
Abbreviation FS := (gmap string string).

Definition readFile (fs : FS) (path : string) : string * option error :=
  match fs !! path with
  | None => (EmptyString, Some (ErrRead path))
  | Some data => (TrimSpace data, None)
  end.

Definition parseUint64 (s : string) : Z * option error := ParseUint s.
Definition parseInt64 (s : string) : Z * option error := ParseInt s.

(** The loop of [parseCPUStatUsage] over the lines. *)
Fixpoint scanUsage (lines : list string) : Z :=
  match lines with
  | [] => 0
  | line :: rest =>
      if negb (HasPrefix line "usage_usec ") then scanUsage rest
      else
        let parts := Fields line in
        if negb (Nat.eqb (length parts) 2) then scanUsage rest
        else
          let '(val, err) := parseUint64 (nth 1 parts EmptyString) in
          if isErr err then scanUsage rest
          else val
  end.

Definition parseCPUStatUsage (content : string) : Z :=
  scanUsage (Split content LF).

(** [usageUsec - m.lastCPUUsageUsec] on [uint64]. *)
Definition subUint64 (a b : Z) : Z := (a - b) mod 2 ^ 64.

(** [readCPU]: the result [(percent, limitCores, err)] and the monitor after
    the call; [now] is what [time.Now()] returns when the call reaches it. *)
Definition readCPU (fs : FS) (now : Time) (m : Monitor)
  : (float64 * float64 * option error) * Monitor :=
  let '(cpuMax, err) := readFile fs (cgroupPath m ++ "/cpu.max") in
  if isErr err then ((zero, zero, err), m) else
  let parts := Fields cpuMax in
  if negb (Nat.eqb (length parts) 2) then ((zero, zero, None), m) else
  if String.eqb (nth 0 parts EmptyString) unlimitedValue then ((zero, zero, None), m) else
  let '(quota, err) := parseInt64 (nth 0 parts EmptyString) in
  if isErr err || (quota <=? 0) then ((zero, zero, None), m) else
  let '(period, err) := parseInt64 (nth 1 parts EmptyString) in
  if isErr err then ((zero, zero, None), m) else
  if period =? 0 then ((zero, zero, None), m) else
  let cpuLimitCores := div (ofZ quota) (ofZ period) in
  let '(cpuStat, err) := readFile fs (cgroupPath m ++ "/cpu.stat") in
  if isErr err then ((zero, cpuLimitCores, err), m) else
  let usageUsec := parseCPUStatUsage cpuStat in
  if negb (hasBaseline m) then
    ((zero, cpuLimitCores, None), mkMonitor (cgroupPath m) usageUsec now true)
  else if usageUsec <? lastCPUUsageUsec m then
    ((zero, cpuLimitCores, None), mkMonitor (cgroupPath m) usageUsec now (hasBaseline m))
  else
    let usageDelta := ofZ (subUint64 usageUsec (lastCPUUsageUsec m)) in
    let timeDelta := Sub now (lastCPUSampleTime m) in
    if timeDelta =? 0 then ((zero, cpuLimitCores, None), m) else
    let elapsedUsec := ofZ (Microseconds timeDelta) in
    let coresUsed := div usageDelta elapsedUsec in
    let cpuPercent := mul (div coresUsed cpuLimitCores) (ofZ 100) in
    ((cpuPercent, cpuLimitCores, None), mkMonitor (cgroupPath m) usageUsec now (hasBaseline m)).

(** [readMemory]: [(percent, currentBytes, limitBytes, err)]; the monitor is
    only read. *)
Definition readMemory (fs : FS) (m : Monitor) : float64 * Z * Z * option error :=
  let '(memMax, err) := readFile fs (cgroupPath m ++ "/memory.max") in
  if isErr err then (zero, 0, 0, err) else
  if String.eqb memMax unlimitedValue then (zero, 0, 0, None) else
  let '(memLimit, err) := parseUint64 memMax in
  if isErr err then (zero, 0, 0, None) else
  let '(memCurrent, err) := readFile fs (cgroupPath m ++ "/memory.current") in
  if isErr err then (zero, 0, memLimit, err) else
  let '(memBytes, err) := parseUint64 memCurrent in
  if isErr err then (zero, 0, memLimit, None) else
  let memPercent := mul (div (ofZ memBytes) (ofZ memLimit)) (ofZ 100) in
  (memPercent, memBytes, memLimit, None).

(** The method [Stats] of [Monitor], under a name of its own since [Stats]
    is the record: one CPU read, then one memory read, the errors dropped. *)
Definition readStats (fs : FS) (now : Time) (m : Monitor) : Stats * Monitor :=
  let '((cpuPercent, cpuLimit, _), m') := readCPU fs now m in
  let '(memPercent, memBytes, memLimit, _) := readMemory fs m' in
  (mkStats cpuPercent memPercent memBytes memLimit cpuLimit, m').

(** ** Views of the inputs *)

(** The payload of [cpu.max] is a valid limit of [quota] per [period]: two
    fields, the first one not the sentinel, a positive quota and a period
    that is not zero. These are the guards that [readCPU] passes before it
    computes [cpuLimitCores]. *)
Definition validLimit (cpuMax : string) (quota period : Z) : Prop :=
  exists q p : string,
    Fields cpuMax = [q; p] /\ q <> unlimitedValue /\
    parseInt64 q = (quota, None) /\ 0 < quota /\
    parseInt64 p = (period, None) /\ period <> 0.

(** A call of [readCPU] under [path] that finds [fs] reaches the sample: the
    limit is valid and [cpu.stat] can be read. *)
Definition takesSample (path : string) (fs : FS) : Prop :=
  exists (rawMax rawStat : string) (quota period : Z),
    fs !! (path ++ "/cpu.max") = Some rawMax /\
    validLimit (TrimSpace rawMax) quota period /\
    fs !! (path ++ "/cpu.stat") = Some rawStat.

(** Successive calls of [readCPU] on one monitor, each with the files and
    the clock reading that it finds. *)
Fixpoint runCPU (m : Monitor) (calls : list (FS * Time)) : Monitor :=
  match calls with
  | [] => m
  | (fs, now) :: rest => runCPU (snd (readCPU fs now m)) rest
  end.

(** A usage line of [cpu.stat] that [parseCPUStatUsage] passes over: it has
    not two fields, or its second field is not an [uint64]. *)
Definition malformedUsage (line : string) : Prop :=
  forall k v : string, Fields line = [k; v] -> snd (parseUint64 v) <> None.

(** ** The fixtures of the package's tests *)

Record testCgroupFiles : Type := mkFiles {
  cpuMax : string;
  cpuStat : string;
  memoryMax : string;
  memoryCur : string
}.

Definition writeCgroupFile (fs : FS) (path content : string) : FS :=
  <[path := content]> fs.

Definition writeIfSet (fs : FS) (path content : string) : FS :=
  if String.eqb content EmptyString then fs else writeCgroupFile fs path content.

(** [setupTestCgroup], on the directory that [os.MkdirTemp] returned. *)
Definition setupTestCgroup (dir : string) (files : testCgroupFiles) : FS :=
  let fs := writeCgroupFile ∅ (dir ++ "/cgroup.controllers") "cpu memory" in
  let fs := writeIfSet fs (dir ++ "/cpu.max") (cpuMax files) in
  let fs := writeIfSet fs (dir ++ "/cpu.stat") (cpuStat files) in
  let fs := writeIfSet fs (dir ++ "/memory.max") (memoryMax files) in
  writeIfSet fs (dir ++ "/memory.current") (memoryCur files).

Definition testDir : string := "/tmp/cgroupv2-test-1".

(** [TestMonitor_Stats]. *)
Definition statsFiles : testCgroupFiles :=
  mkFiles "50000 100000" "usage_usec 5000000" "2147483648" "1073741824".

(** [TestNoCPULimit]. *)
Definition noCPULimitFiles : testCgroupFiles :=
  mkFiles "max 100000" "usage_usec 1000000" "" "".

(** [TestNegativeQuota] and [TestZeroPeriod]. *)
Definition negativeQuotaFiles : testCgroupFiles :=
  mkFiles "-100000 100000" "usage_usec 1000000" "" "".
Definition zeroPeriodFiles : testCgroupFiles :=
  mkFiles "100000 0" "usage_usec 1000000" "" "".

(** [TestCounterReset]: the files at the first call, and [cpu.stat] as it is
    written before the second call. *)
Definition counterResetFiles : testCgroupFiles :=
  mkFiles "100000 100000" "usage_usec 1000000" "" "".
Definition counterResetStat : string := "usage_usec 500".

(** [TestMonitor_CPUPercent]: the files, and [cpu.stat] as it is written
    before the second call. *)
Definition cpuPercentFiles : testCgroupFiles :=
  mkFiles "100000 100000" "usage_usec 1000000" "1073741824" "536870912".
Definition cpuPercentStat : string := "usage_usec 1100000".

(** A memory limit of zero bytes, and memory files that are not numbers. *)
Definition zeroMemoryLimitFiles : testCgroupFiles :=
  mkFiles "100000 100000" "usage_usec 1000000" "0" "1073741824".
Definition badMemoryLimitFiles : testCgroupFiles :=
  mkFiles "" "" "lots" "1073741824".
Definition badMemoryCurrentFiles : testCgroupFiles :=
  mkFiles "" "" "2147483648" "-1".
(** No [memory.current], no [cpu.stat]. *)
Definition limitsOnlyFiles : testCgroupFiles :=
  mkFiles "50000 100000" "" "2147483648" "".

(** The second table entry of [TestParseCPUStatUsage]. *)
Definition usageNotFirst : string :=
  String.concat (String LF EmptyString) ["nr_periods 100"; "usage_usec 99999"; "nr_throttled 5"].
(** The third one, and a payload whose usage line is not a number. *)
Definition missingUsage : string :=
  String.concat (String LF EmptyString) ["user_usec 10000000"; "system_usec 2345678"].
Definition brokenUsage : string :=
  String.concat (String LF EmptyString) ["usage_usec 12 34"; "usage_usec -7"; "user_usec 1"].

(** The monitor of the tests, before its first call. *)
Definition testMonitor : Monitor := NewMonitor [WithCgroupPath testDir].

(** ** The rest of the public interface *)

Definition cgroupControllersFile : string := "cgroup.controllers".

(** [Available]: [os.Stat] on the marker file of the default path succeeds.
    The files of [fs] are the paths that exist. *)
Definition Available (fs : FS) : bool :=
  match fs !! (defaultCgroupPath ++ "/" ++ cgroupControllersFile) with
  | Some _ => true
  | None => false
  end.

(** The methods [CPUPercent] and [MemoryPercent] of [Monitor], under names
    of their own since the fields of [Stats] have theirs. *)
Definition Monitor_CPUPercent (fs : FS) (now : Time) (m : Monitor) : float64 * Monitor :=
  let '((pct, _, _), m') := readCPU fs now m in (pct, m').

Definition Monitor_MemoryPercent (fs : FS) (m : Monitor) : float64 :=
  let '(pct, _, _, _) := readMemory fs m in pct.

(** ** Decimal numerals *)

(** The bytes ['0'] to ['9']. *)
Definition isDigit (c : ascii) : bool := (48 <=? byte c) && (byte c <=? 57).

Fixpoint allDigits (s : string) : bool :=
  match s with
  | EmptyString => true
  | String c r => isDigit c && allDigits r
  end.

(** The number that the digits of [s] write in base 10 after the digits
    that gave [n]. *)
Fixpoint decimalFrom (n : Z) (s : string) : Z :=
  match s with
  | EmptyString => n
  | String c r => decimalFrom (n * 10 + (byte c - 48)) r
  end.

Definition decimalValue (s : string) : Z := decimalFrom 0 s.

(** A byte of ASCII that is not white space, and the strings of such bytes:
    the tokens of the files of the kernel. *)
Definition isPlain (c : ascii) : bool := (byte c <? 128) && negb (asciiSpace c).

Fixpoint allPlain (s : string) : bool :=
  match s with
  | EmptyString => true
  | String c r => isPlain c && allPlain r
  end.

(** No byte of [s] is the line feed. *)
Fixpoint noLF (s : string) : bool :=
  match s with
  | EmptyString => true
  | String c r => negb (Ascii.eqb c LF) && noLF r
  end.

(** Every file of [fs] with a line feed at its end, as the kernel writes
    them. *)
Definition newlineTerminated (fs : FS) : FS :=
  (fun content => content ++ String LF EmptyString) <$> fs.

(** ** Binary64 numbers by their size *)

(** A normal number: 53 digits in the mantissa, and the exponent between
    [lo] and [hi]. *)
Definition normal (lo hi : Z) (x : float64) : Prop :=
  match x with
  | S754_finite _ m e => Z.pos (digits2_pos m) = 53 /\ lo <= e <= hi
  | _ => False
  end.

(** A zero or a normal number. *)
Definition zeroOrNormal (lo hi : Z) (x : float64) : Prop :=
  match x with
  | S754_zero _ => True
  | _ => normal lo hi x
  end.

(** ** The guards of [readCPU] *)

Section Guards.

Variables (fs : FS) (now : Time) (m : Monitor).

Lemma readCPU_unreadable :
  fs !! (cgroupPath m ++ "/cpu.max") = None ->
  readCPU fs now m = ((zero, zero, Some (ErrRead (cgroupPath m ++ "/cpu.max"))), m).
Proof.
  intros H. unfold readCPU, readFile. rewrite H. reflexivity.
Qed.

(** Past the guards, [readCPU] is its sampling part. *)
Lemma readCPU_valid (raw : string) (quota period : Z) :
  fs !! (cgroupPath m ++ "/cpu.max") = Some raw ->
  validLimit (TrimSpace raw) quota period ->
  readCPU fs now m =
    let cpuLimitCores := div (ofZ quota) (ofZ period) in
    match fs !! (cgroupPath m ++ "/cpu.stat") with
    | None => ((zero, cpuLimitCores, Some (ErrRead (cgroupPath m ++ "/cpu.stat"))), m)
    | Some rawStat =>
        let usageUsec := parseCPUStatUsage (TrimSpace rawStat) in
        if negb (hasBaseline m) then
          ((zero, cpuLimitCores, None), mkMonitor (cgroupPath m) usageUsec now true)
        else if usageUsec <? lastCPUUsageUsec m then
          ((zero, cpuLimitCores, None),
           mkMonitor (cgroupPath m) usageUsec now (hasBaseline m))
        else if Sub now (lastCPUSampleTime m) =? 0 then ((zero, cpuLimitCores, None), m)
        else
          ((mul (div (div (ofZ (subUint64 usageUsec (lastCPUUsageUsec m)))
                          (ofZ (Microseconds (Sub now (lastCPUSampleTime m)))))
                     cpuLimitCores)
                (ofZ 100),
            cpuLimitCores, None),
           mkMonitor (cgroupPath m) usageUsec now (hasBaseline m))
    end.
Proof.
  intros Hmax (q & p & HF & Hq & Hpq & Hpos & Hpp & Hne).
  unfold readCPU, readFile. rewrite Hmax. cbv beta iota. cbn [isErr].
  rewrite HF. cbn [length Nat.eqb negb nth].
  apply String.eqb_neq in Hq. rewrite Hq.
  rewrite Hpq, Hpp. cbv beta iota. cbn [isErr orb].
  apply Z.leb_gt in Hpos. rewrite Hpos.
  apply Z.eqb_neq in Hne. rewrite Hne.
  destruct (fs !! (cgroupPath m ++ "/cpu.stat")); reflexivity.
Qed.

(** Short of a valid limit, [readCPU] returns zeros and no error. *)
Lemma readCPU_invalid (raw : string) :
  fs !! (cgroupPath m ++ "/cpu.max") = Some raw ->
  ~ (exists quota period, validLimit (TrimSpace raw) quota period) ->
  readCPU fs now m = ((zero, zero, None), m).
Proof.
  intros Hmax Hno. unfold readCPU, readFile. rewrite Hmax. cbv beta iota. cbn [isErr].
  destruct (Fields (TrimSpace raw)) as [|q [|p [|x l]]] eqn:HF; try reflexivity.
  cbn [length Nat.eqb negb nth].
  destruct (String.eqb q unlimitedValue) eqn:Hq; [reflexivity|].
  destruct (parseInt64 q) as [quota [e|]] eqn:Hpq; [reflexivity|].
  cbn [isErr orb].
  destruct (quota <=? 0) eqn:Hpos; [reflexivity|].
  destruct (parseInt64 p) as [period [e|]] eqn:Hpp; [reflexivity|].
  cbn [isErr].
  destruct (period =? 0) eqn:Hne; [reflexivity|].
  exfalso. apply Hno. exists quota, period, q, p.
  apply String.eqb_neq in Hq. apply Z.leb_gt in Hpos. apply Z.eqb_neq in Hne.
  repeat split; assumption.
Qed.

(** The three ways through the guards. *)
Lemma readCPU_cases :
  fs !! (cgroupPath m ++ "/cpu.max") = None
  \/ (exists raw, fs !! (cgroupPath m ++ "/cpu.max") = Some raw /\
                  ~ (exists quota period, validLimit (TrimSpace raw) quota period))
  \/ (exists raw quota period,
        fs !! (cgroupPath m ++ "/cpu.max") = Some raw /\
        validLimit (TrimSpace raw) quota period).
Proof.
  destruct (fs !! (cgroupPath m ++ "/cpu.max")) as [raw|] eqn:Hmax; [|now left].
  right.
  destruct (Fields (TrimSpace raw)) as [|q [|p [|x l]]] eqn:HF;
    try (left; exists raw; split; [reflexivity|];
         intros (quota & period & q' & p' & HF' & _); congruence).
  destruct (String.eqb q unlimitedValue) eqn:Hq.
  { left. exists raw. split; [reflexivity|].
    intros (quota & period & q' & p' & HF' & Hq' & _).
    apply String.eqb_eq in Hq. congruence. }
  destruct (parseInt64 q) as [quota eq] eqn:Hpq.
  destruct (parseInt64 p) as [period ep] eqn:Hpp.
  destruct eq as [e|].
  { left. exists raw. split; [reflexivity|].
    intros (quota' & period' & q' & p' & HF' & _ & Hpq' & _). congruence. }
  destruct ep as [e|].
  { left. exists raw. split; [reflexivity|].
    intros (quota' & period' & q' & p' & HF' & _ & _ & _ & Hpp' & _). congruence. }
  destruct (Z_lt_dec 0 quota) as [Hpos|Hpos].
  2:{ left. exists raw. split; [reflexivity|].
      intros (quota' & period' & q' & p' & HF' & _ & Hpq' & Hpos' & _).
      assert (quota' = quota) by congruence. lia. }
  destruct (Z.eq_dec period 0) as [Hz|Hz].
  { left. exists raw. split; [reflexivity|].
    intros (quota' & period' & q' & p' & HF' & _ & _ & _ & Hpp' & Hne').
    assert (period' = period) by congruence. lia. }
  right. exists raw, quota, period. split; [reflexivity|].
  exists q, p. apply String.eqb_neq in Hq. repeat split; assumption.
Qed.

End Guards.

(** The case analysis of [readCPU_cases], with the call rewritten in each
    case. *)
Ltac by_guards fs now m :=
  let H := fresh "Hmax" in
  let raw := fresh "raw" in
  let Hno := fresh "Hno" in
  let quota := fresh "quota" in
  let period := fresh "period" in
  let Hv := fresh "Hv" in
  destruct (readCPU_cases fs m)
    as [H | [(raw & H & Hno) | (raw & quota & period & H & Hv)]];
  [ rewrite (readCPU_unreadable fs now m H)
  | rewrite (readCPU_invalid fs now m raw H Hno)
  | rewrite (readCPU_valid fs now m raw quota period H Hv); cbv zeta ].

(** Goals on the fixtures: the content of a file, a result that is computed,
    and the validity of a limit of two given fields. *)
Ltac computed := vm_compute; reflexivity.
Ltac valid_limit q p :=
  exists q, p; repeat split; solve [reflexivity | lia | discriminate].

(** ** Frame and preservation lemmas *)

Lemma readCPU_cgroupPath (fs : FS) (now : Time) (m : Monitor) :
  cgroupPath (snd (readCPU fs now m)) = cgroupPath m.
Proof.
  by_guards fs now m; try reflexivity.
  destruct (fs !! (cgroupPath m ++ "/cpu.stat")); [|reflexivity].
  destruct (negb (hasBaseline m)); [reflexivity|].
  destruct (_ <? _); [reflexivity|].
  destruct (_ =? _); reflexivity.
Qed.

Lemma readCPU_hasBaseline_mono (fs : FS) (now : Time) (m : Monitor) :
  hasBaseline m = true -> hasBaseline (snd (readCPU fs now m)) = true.
Proof.
  intros Hb.
  by_guards fs now m; try exact Hb.
  destruct (fs !! (cgroupPath m ++ "/cpu.stat")); [|exact Hb].
  rewrite Hb. cbn [negb].
  destruct (_ <? _); [reflexivity|].
  destruct (_ =? _); [exact Hb | reflexivity].
Qed.

(** A call sets [hasBaseline] exactly when it takes a sample. *)
Lemma readCPU_hasBaseline_step (fs : FS) (now : Time) (m : Monitor) :
  hasBaseline m = false ->
  (hasBaseline (snd (readCPU fs now m)) = true <-> takesSample (cgroupPath m) fs).
Proof.
  intros Hb.
  destruct (readCPU_cases fs m) as [H | [(raw & H & Hno) | (raw & quota & period & H & Hv)]].
  - rewrite readCPU_unreadable by assumption. cbn [snd]. split.
    + congruence.
    + intros (rawMax & _ & _ & _ & H' & _). congruence.
  - rewrite (readCPU_invalid fs now m raw) by assumption. cbn [snd]. split.
    + congruence.
    + intros (rawMax & _ & quota & period & H' & Hv & _).
      exfalso. apply Hno. exists quota, period.
      assert (rawMax = raw) by congruence. subst. exact Hv.
  - rewrite (readCPU_valid fs now m raw quota period) by assumption. cbv zeta.
    destruct (fs !! (cgroupPath m ++ "/cpu.stat")) as [rawStat|] eqn:Hs.
    + rewrite Hb. cbn [negb snd hasBaseline]. split; [|reflexivity].
      intros _. exists raw, rawStat, quota, period. auto.
    + cbn [snd]. split; [congruence|].
      intros (_ & rawStat & _ & _ & _ & _ & Hs'). congruence.
Qed.

Lemma NewMonitor_fresh (paths : list string) :
  hasBaseline (NewMonitor (map WithCgroupPath paths)) = false.
Proof.
  unfold NewMonitor.
  generalize (mkMonitor defaultCgroupPath 0 0 false) (eq_refl false : hasBaseline (mkMonitor defaultCgroupPath 0 0 false) = false).
  induction paths as [|p ps IH]; intros m0 H0; [exact H0|].
  cbn [map fold_left]. apply IH. exact H0.
Qed.

Lemma runCPU_cgroupPath (calls : list (FS * Time)) (m : Monitor) :
  cgroupPath (runCPU m calls) = cgroupPath m.
Proof.
  revert m. induction calls as [|[fs now] rest IH]; intros m; [reflexivity|].
  cbn [runCPU]. rewrite IH. apply readCPU_cgroupPath.
Qed.

Lemma runCPU_hasBaseline_mono (calls : list (FS * Time)) (m : Monitor) :
  hasBaseline m = true -> hasBaseline (runCPU m calls) = true.
Proof.
  revert m. induction calls as [|[fs now] rest IH]; intros m Hb; [exact Hb|].
  cbn [runCPU]. apply IH, readCPU_hasBaseline_mono, Hb.
Qed.

(** ** Parsing lemmas *)

Lemma parseUint64_sentinel : parseUint64 unlimitedValue = (0, Some ErrSyntax).
Proof. reflexivity. Qed.

Lemma parseUintLoop_range (s : string) (n v : Z) :
  0 <= n <= maxUint64 -> parseUintLoop n s = (v, None) -> 0 <= v <= maxUint64.
Proof.
  revert n. induction s as [|c r IH]; intros n Hn; cbn [parseUintLoop].
  - intros [= <-]. exact Hn.
  - cbv zeta. destruct (_ && _) eqn:Hd; [|discriminate].
    destruct (n >=? _); [discriminate|].
    destruct (_ >? maxUint64) eqn:Hov; [discriminate|].
    apply IH.
    apply andb_prop in Hd as [H1 H2]. apply Z.leb_le in H1.
    rewrite Z.gtb_ltb in Hov. apply Z.ltb_ge in Hov.
    lia.
Qed.

Lemma parseUint64_range (s : string) (v : Z) :
  parseUint64 s = (v, None) -> 0 <= v < 2 ^ 64.
Proof.
  unfold parseUint64, ParseUint. destruct s as [|c r]; [discriminate|].
  intros H. apply parseUintLoop_range in H; unfold maxUint64 in *; lia.
Qed.

Lemma scanUsage_range (lines : list string) : 0 <= scanUsage lines < 2 ^ 64.
Proof.
  induction lines as [|line rest IH]; cbn [scanUsage]; [lia|].
  destruct (negb (HasPrefix _ _)); [exact IH|].
  cbv zeta. destruct (negb (Nat.eqb _ _)); [exact IH|].
  destruct (parseUint64 _) as [val [e|]] eqn:Hp; cbn [isErr]; [exact IH|].
  eapply parseUint64_range, Hp.
Qed.

(** ** The CPU sampler *)

(** C1. With a valid limit and a readable [cpu.stat], a call of [readCPU]
    that finds no baseline, or a usage counter below the stored one, stores
    the sample [(usage, now)], leaves [hasBaseline] set, and returns a
    percentage of 0 with [limitCores = quota / period] and no error. *)
Theorem readCPU_baseline (fs : FS) (now : Time) (m : Monitor)
    (rawMax rawStat : string) (quota period : Z) :
  fs !! (cgroupPath m ++ "/cpu.max") = Some rawMax ->
  validLimit (TrimSpace rawMax) quota period ->
  fs !! (cgroupPath m ++ "/cpu.stat") = Some rawStat ->
  hasBaseline m = false \/ parseCPUStatUsage (TrimSpace rawStat) < lastCPUUsageUsec m ->
  readCPU fs now m =
    ((zero, div (ofZ quota) (ofZ period), None),
     mkMonitor (cgroupPath m) (parseCPUStatUsage (TrimSpace rawStat)) now true).
Proof.
  intros Hmax Hv Hstat Hcase.
  rewrite (readCPU_valid fs now m rawMax quota period Hmax Hv), Hstat. cbv zeta.
  destruct (hasBaseline m) eqn:Hb; cbn [negb]; [|reflexivity].
  destruct Hcase as [Hc|Hc]; [discriminate|].
  apply Z.ltb_lt in Hc. rewrite Hc. reflexivity.
Qed.

(** The first call of [TestCounterReset] sets the baseline, the second one,
    on a smaller counter, replaces it. *)
Lemma readCPU_baseline_witness :
  let fs := setupTestCgroup testDir counterResetFiles in
  let fs' := writeCgroupFile fs (testDir ++ "/cpu.stat") counterResetStat in
  readCPU fs 1000 testMonitor
    = ((zero, ofZ 1, None), mkMonitor testDir 1000000 1000 true)
  /\ readCPU fs' 10001000 (mkMonitor testDir 1000000 1000 true)
    = ((zero, ofZ 1, None), mkMonitor testDir 500 10001000 true).
Proof.
  split.
  - apply (readCPU_baseline (setupTestCgroup testDir counterResetFiles) 1000 testMonitor
             "100000 100000" "usage_usec 1000000" 100000 100000).
    + computed.
    + valid_limit "100000" "100000".
    + computed.
    + left; reflexivity.
  - apply (readCPU_baseline
             (writeCgroupFile (setupTestCgroup testDir counterResetFiles)
                (testDir ++ "/cpu.stat") counterResetStat)
             10001000 (mkMonitor testDir 1000000 1000 true)
             "100000 100000" "usage_usec 500" 100000 100000).
    + computed.
    + valid_limit "100000" "100000".
    + computed.
    + right; vm_compute; reflexivity.
Defined.

(** With a baseline, a counter that did not go back and a clock that did not
    move, [readCPU] returns a percentage of 0. *)
Lemma readCPU_zero_timeDelta (fs : FS) (now : Time) (m : Monitor)
    (rawMax rawStat : string) (quota period : Z) :
  fs !! (cgroupPath m ++ "/cpu.max") = Some rawMax ->
  validLimit (TrimSpace rawMax) quota period ->
  fs !! (cgroupPath m ++ "/cpu.stat") = Some rawStat ->
  hasBaseline m = true ->
  lastCPUUsageUsec m <= parseCPUStatUsage (TrimSpace rawStat) ->
  Sub now (lastCPUSampleTime m) = 0 ->
  readCPU fs now m = ((zero, div (ofZ quota) (ofZ period), None), m).
Proof.
  intros Hmax Hv Hstat Hb Hle Hd.
  rewrite (readCPU_valid fs now m rawMax quota period Hmax Hv), Hstat. cbv zeta.
  rewrite Hb. cbn [negb].
  apply Z.ltb_ge in Hle. rewrite Hle, Hd. reflexivity.
Qed.

(** What the guard of [readCPU] on the elapsed time does cover. After a
    baseline exists, a call whose clock reading is the stored sample time,
    to the nanosecond, returns a percentage of 0, the constant and not a
    quotient; when it reaches the comparison of the clock readings, it
    returns the limit and no error beside it, and the monitor as it was. *)
Theorem readCPU_zero_elapsed (fs : FS) (now : Time) (m : Monitor) :
  hasBaseline m = true ->
  Sub now (lastCPUSampleTime m) = 0 ->
  fst (fst (fst (readCPU fs now m))) = zero
  /\ (forall (rawMax rawStat : string) (quota period : Z),
         fs !! (cgroupPath m ++ "/cpu.max") = Some rawMax ->
         validLimit (TrimSpace rawMax) quota period ->
         fs !! (cgroupPath m ++ "/cpu.stat") = Some rawStat ->
         lastCPUUsageUsec m <= parseCPUStatUsage (TrimSpace rawStat) ->
         readCPU fs now m = ((zero, div (ofZ quota) (ofZ period), None), m)).
Proof.
  intros Hb Hd. split.
  - by_guards fs now m; try reflexivity.
    destruct (fs !! (cgroupPath m ++ "/cpu.stat")); [|reflexivity].
    rewrite Hb, Hd. cbn [negb].
    destruct (_ <? _); reflexivity.
  - intros rawMax rawStat quota period Hmax Hv Hstat Hle.
    exact (readCPU_zero_timeDelta fs now m rawMax rawStat quota period
             Hmax Hv Hstat Hb Hle Hd).
Qed.

(** A second call of [TestMonitor_CPUPercent] at the instant of the
    baseline. *)
Lemma readCPU_zero_elapsed_witness :
  let m1 := mkMonitor testDir 1000000 1000 true in
  let fs' := writeCgroupFile (setupTestCgroup testDir cpuPercentFiles)
               (testDir ++ "/cpu.stat") cpuPercentStat in
  fst (fst (fst (readCPU fs' 1000 m1))) = zero
  /\ readCPU fs' 1000 m1 = ((zero, div (ofZ 100000) (ofZ 100000), None), m1).
Proof.
  intros m1 fs'.
  assert (Hb : hasBaseline m1 = true) by reflexivity.
  assert (Hd : Sub 1000 (lastCPUSampleTime m1) = 0) by reflexivity.
  split.
  - exact (proj1 (readCPU_zero_elapsed fs' 1000 m1 Hb Hd)).
  - apply (proj2 (readCPU_zero_elapsed fs' 1000 m1 Hb Hd)
             "100000 100000" "usage_usec 1100000" 100000 100000).
    + computed.
    + valid_limit "100000" "100000".
    + computed.
    + vm_compute; discriminate.
Defined.

(** C2 (defect of the code). The elapsed time that [readCPU] divides by is
    [timeDelta.Microseconds()], in whole microseconds, and its guard is
    [timeDelta == 0], on the nanoseconds. Half a microsecond after the
    baseline of [TestMonitor_CPUPercent] the elapsed microseconds are zero,
    the guard is passed and the division by that zero is made: the
    percentage is not 0 but an infinity when the usage counter moved, and a
    NaN when it did not. The monitor takes the new sample. *)
Theorem readCPU_zero_microseconds_divides :
  let fs := setupTestCgroup testDir cpuPercentFiles in
  let fs' := writeCgroupFile fs (testDir ++ "/cpu.stat") cpuPercentStat in
  let m1 := snd (readCPU fs 1000 testMonitor) in
  m1 = mkMonitor testDir 1000000 1000 true
  /\ Sub 1500 (lastCPUSampleTime m1) = 500
  /\ Microseconds (Sub 1500 (lastCPUSampleTime m1)) = 0
  /\ ofZ (Microseconds (Sub 1500 (lastCPUSampleTime m1))) = zero
  /\ readCPU fs' 1500 m1
     = ((S754_infinity false, ofZ 1, None), mkMonitor testDir 1100000 1500 true)
  /\ readCPU fs 1500 m1
     = ((S754_nan, ofZ 1, None), mkMonitor testDir 1000000 1500 true)
  /\ fst (fst (fst (readCPU fs' 1500 m1))) <> zero
  /\ fst (fst (fst (readCPU fs 1500 m1))) <> zero.
Proof.
  vm_compute. repeat split; solve [reflexivity | discriminate].
Qed.

(** C5. When [cpu.max] is read and its quota field is the sentinel [max],
    or parses to a quota that is not positive, or its period field parses to
    0, [readCPU] returns [(0, 0)] with no error, and the monitor as it was. *)
Theorem readCPU_no_limit (fs : FS) (now : Time) (m : Monitor) (raw : string) :
  fs !! (cgroupPath m ++ "/cpu.max") = Some raw ->
  let parts : list string := Fields (TrimSpace raw) in
  (parts !! 0%nat = Some unlimitedValue
   \/ (exists (q : string) (quota : Z),
         parts !! 0%nat = Some q /\ parseInt64 q = (quota, None) /\ quota <= 0)
   \/ (exists p : string, parts !! 1%nat = Some p /\ parseInt64 p = (0, None))) ->
  readCPU fs now m = ((zero, zero, None), m).
Proof.
  intros Hmax parts Hcase.
  apply (readCPU_invalid fs now m raw Hmax).
  intros (quota & period & q & p & HF & Hq & Hpq & Hpos & Hpp & Hne).
  subst parts. rewrite HF in Hcase. cbn in Hcase.
  destruct Hcase as [[= H] | [(q' & quota' & [= <-] & Hpq' & Hle) | (p' & [= <-] & Hpp')]].
  - congruence.
  - assert (quota' = quota) by congruence. lia.
  - assert (period = 0) by congruence. lia.
Qed.

(** [TestNoCPULimit], [TestNegativeQuota] and [TestZeroPeriod]. *)
Lemma readCPU_no_limit_witness :
  readCPU (setupTestCgroup testDir noCPULimitFiles) 1000 testMonitor
    = ((zero, zero, None), testMonitor)
  /\ readCPU (setupTestCgroup testDir negativeQuotaFiles) 1000 testMonitor
    = ((zero, zero, None), testMonitor)
  /\ readCPU (setupTestCgroup testDir zeroPeriodFiles) 1000 testMonitor
    = ((zero, zero, None), testMonitor).
Proof.
  split; [|split].
  - apply (readCPU_no_limit _ 1000 testMonitor "max 100000").
    + computed.
    + left. vm_compute; reflexivity.
  - apply (readCPU_no_limit _ 1000 testMonitor "-100000 100000").
    + computed.
    + right; left. exists "-100000", (-100000).
      repeat split; solve [vm_compute; reflexivity | lia].
  - apply (readCPU_no_limit _ 1000 testMonitor "100000 0").
    + computed.
    + right; right. exists "0". split; vm_compute; reflexivity.
Defined.

(** ** The session state *)

(** C3, as far as the code goes. [hasBaseline] is false in a new monitor,
    and false exactly until the first call of [readCPU] that takes a sample,
    that is, finds a valid limit in [cpu.max] and reads [cpu.stat]; once true
    it stays true; and a call either leaves [lastCPUUsageUsec] and
    [lastCPUSampleTime] both as they were or sets both, to the usage it
    parsed and to its clock reading. *)
Theorem hasBaseline_invariant :
  (forall paths : list string,
      hasBaseline (NewMonitor (map WithCgroupPath paths)) = false)
  /\ (forall (m0 : Monitor) (calls : list (FS * Time)),
        hasBaseline m0 = false ->
        (hasBaseline (runCPU m0 calls) = true
         <-> exists (fs : FS) (now : Time),
               In (fs, now) calls /\ takesSample (cgroupPath m0) fs))
  /\ (forall (fs : FS) (now : Time) (m : Monitor),
         hasBaseline m = true -> hasBaseline (snd (readCPU fs now m)) = true)
  /\ (forall (fs : FS) (now : Time) (m : Monitor),
         let m' := snd (readCPU fs now m) in
         (lastCPUUsageUsec m' = lastCPUUsageUsec m
          /\ lastCPUSampleTime m' = lastCPUSampleTime m)
         \/ (exists rawStat : string,
               fs !! (cgroupPath m ++ "/cpu.stat") = Some rawStat
               /\ lastCPUUsageUsec m' = parseCPUStatUsage (TrimSpace rawStat)
               /\ lastCPUSampleTime m' = now)).
Proof.
  split; [|split; [|split]].
  - exact NewMonitor_fresh.
  - intros m0 calls. revert m0.
    induction calls as [|[fs now] rest IH]; intros m0 H0.
    + cbn [runCPU]. split; [congruence|]. intros (fs & now & [] & _).
    + cbn [runCPU].
      destruct (hasBaseline (snd (readCPU fs now m0))) eqn:H1.
      * split.
        -- intros _. exists fs, now. split; [now left|].
           apply (readCPU_hasBaseline_step fs now m0 H0), H1.
        -- intros _. apply runCPU_hasBaseline_mono, H1.
      * rewrite (IH _ H1), readCPU_cgroupPath. split.
        -- intros (fs' & now' & Hin & Hs). exists fs', now'. split; [now right | exact Hs].
        -- intros (fs' & now' & [[= <- <-] | Hin] & Hs).
           ++ apply (readCPU_hasBaseline_step fs now m0 H0) in Hs. congruence.
           ++ exists fs', now'. split; assumption.
  - exact readCPU_hasBaseline_mono.
  - intros fs now m m'. subst m'.
    by_guards fs now m; try (left; split; reflexivity).
    destruct (fs !! (cgroupPath m ++ "/cpu.stat")) as [rawStat|];
      [|left; split; reflexivity].
    destruct (negb (hasBaseline m));
      [right; exists rawStat; repeat split; reflexivity|].
    destruct (_ <? _); [right; exists rawStat; repeat split; reflexivity|].
    destruct (_ =? _); [left; split; reflexivity|].
    right; exists rawStat; repeat split; reflexivity.
Qed.

(** On the monitor of the tests: a call without a limit leaves the flag
    unset, the call of [TestMonitor_Stats] after it sets it. *)
Lemma hasBaseline_invariant_witness :
  hasBaseline
    (runCPU testMonitor
       [(setupTestCgroup testDir noCPULimitFiles, 1000);
        (setupTestCgroup testDir statsFiles, 2000)]) = true.
Proof.
  apply (proj1 (proj2 hasBaseline_invariant) testMonitor
           [(setupTestCgroup testDir noCPULimitFiles, 1000);
            (setupTestCgroup testDir statsFiles, 2000)]).
  - exact (proj1 hasBaseline_invariant [testDir]).
  - exists (setupTestCgroup testDir statsFiles), 2000. split.
    + right; left; reflexivity.
    + exists "50000 100000", "usage_usec 5000000", 50000, 100000.
      split; [vm_compute; reflexivity|]. split; [|vm_compute; reflexivity].
      valid_limit "50000" "100000".
Defined.

(** C3, as the claim has it, fails: the call of [TestNoCPULimit] completes
    with no error, and [hasBaseline] is still false after it. *)
Lemma hasBaseline_unset_after_successful_read :
  let r := readCPU (setupTestCgroup testDir noCPULimitFiles) 1000 testMonitor in
  hasBaseline testMonitor = false
  /\ fst r = (zero, zero, None)
  /\ hasBaseline (snd r) = false.
Proof.
  vm_compute. repeat split; reflexivity.
Qed.

(** C10. A call of [readCPU] that ends on a read failure of either file, on
    a [cpu.max] that holds no valid limit, or in the branch of a zero elapsed
    time, returns the monitor as it was: the usage, the sample time (a sample
    at zero elapsed time does not refresh it) and the flag are unchanged. *)
Theorem readCPU_frame (fs : FS) (now : Time) (m : Monitor) :
  (fs !! (cgroupPath m ++ "/cpu.max") = None
   \/ (exists raw : string,
         fs !! (cgroupPath m ++ "/cpu.max") = Some raw
         /\ ~ (exists quota period : Z, validLimit (TrimSpace raw) quota period))
   \/ fs !! (cgroupPath m ++ "/cpu.stat") = None
   \/ (exists rawStat : string,
         fs !! (cgroupPath m ++ "/cpu.stat") = Some rawStat
         /\ hasBaseline m = true
         /\ lastCPUUsageUsec m <= parseCPUStatUsage (TrimSpace rawStat)
         /\ Sub now (lastCPUSampleTime m) = 0)) ->
  snd (readCPU fs now m) = m.
Proof.
  intros Hcase.
  destruct (readCPU_cases fs m) as [H | [(raw & H & Hno) | (raw & quota & period & H & Hv)]].
  - rewrite readCPU_unreadable by assumption. reflexivity.
  - rewrite (readCPU_invalid fs now m raw) by assumption. reflexivity.
  - destruct Hcase as [Hc | [(raw' & Hr & Hno) | [Hc | (rawStat & Hs & Hb & Hle & Hd)]]].
    + congruence.
    + exfalso. apply Hno. exists quota, period.
      assert (raw' = raw) by congruence. subst. exact Hv.
    + rewrite (readCPU_valid fs now m raw quota period) by assumption.
      cbv zeta. rewrite Hc. reflexivity.
    + rewrite (readCPU_zero_timeDelta fs now m raw rawStat quota period) by assumption.
      reflexivity.
Qed.

(** A second call of [TestMonitor_CPUPercent] at the instant of the first
    one, and a call that finds no [cpu.stat]. *)
Lemma readCPU_frame_witness :
  let m1 := mkMonitor testDir 1000000 1000 true in
  snd (readCPU (writeCgroupFile (setupTestCgroup testDir cpuPercentFiles)
                  (testDir ++ "/cpu.stat") cpuPercentStat) 1000 m1) = m1
  /\ snd (readCPU (setupTestCgroup testDir limitsOnlyFiles) 5000 m1) = m1.
Proof.
  split.
  - apply readCPU_frame. right; right; right.
    exists "usage_usec 1100000". repeat split; vm_compute; solve [reflexivity | discriminate].
  - apply readCPU_frame. right; right; left. vm_compute; reflexivity.
Defined.

(** ** Read failures *)

(** C8. A read failure of the usage file, after the limit was computed, is
    returned as the error, with the limit beside it: [(0, limitCores, err)]
    from [readCPU] when [cpu.stat] cannot be read, [(0, 0, limit, err)] from
    [readMemory] when [memory.current] cannot be read. *)
Theorem read_failure_keeps_limit :
  (forall (fs : FS) (now : Time) (m : Monitor) (rawMax : string) (quota period : Z),
      fs !! (cgroupPath m ++ "/cpu.max") = Some rawMax ->
      validLimit (TrimSpace rawMax) quota period ->
      fs !! (cgroupPath m ++ "/cpu.stat") = None ->
      readCPU fs now m =
        ((zero, div (ofZ quota) (ofZ period),
          Some (ErrRead (cgroupPath m ++ "/cpu.stat"))), m))
  /\ (forall (fs : FS) (m : Monitor) (rawMax : string) (limit : Z),
         fs !! (cgroupPath m ++ "/memory.max") = Some rawMax ->
         parseUint64 (TrimSpace rawMax) = (limit, None) ->
         fs !! (cgroupPath m ++ "/memory.current") = None ->
         readMemory fs m =
           (zero, 0, limit, Some (ErrRead (cgroupPath m ++ "/memory.current")))).
Proof.
  split.
  - intros fs now m rawMax quota period Hmax Hv Hstat.
    rewrite (readCPU_valid fs now m rawMax quota period Hmax Hv), Hstat. reflexivity.
  - intros fs m rawMax limit Hmax Hp Hcur.
    unfold readMemory, readFile. rewrite Hmax. cbv beta iota. cbn [isErr].
    destruct (String.eqb (TrimSpace rawMax) unlimitedValue) eqn:Hs.
    { apply String.eqb_eq in Hs. rewrite Hs, parseUint64_sentinel in Hp. discriminate. }
    rewrite Hp, Hcur. reflexivity.
Qed.

Lemma read_failure_keeps_limit_witness :
  readCPU (setupTestCgroup testDir limitsOnlyFiles) 1000 testMonitor
    = ((zero, div (ofZ 50000) (ofZ 100000), Some (ErrRead (testDir ++ "/cpu.stat"))),
       testMonitor)
  /\ readMemory (setupTestCgroup testDir limitsOnlyFiles) testMonitor
    = (zero, 0, 2147483648, Some (ErrRead (testDir ++ "/memory.current"))).
Proof.
  split.
  - apply (proj1 read_failure_keeps_limit _ 1000 testMonitor "50000 100000" 50000 100000).
    + computed.
    + valid_limit "50000" "100000".
    + computed.
  - apply (proj2 read_failure_keeps_limit _ testMonitor "2147483648" 2147483648).
    + computed.
    + computed.
    + computed.
Defined.

(** ** The memory reader *)

Lemma readMemory_ratio (fs : FS) (m : Monitor) (rawMax rawCur : string) (L U : Z) :
  fs !! (cgroupPath m ++ "/memory.max") = Some rawMax ->
  parseUint64 (TrimSpace rawMax) = (L, None) ->
  fs !! (cgroupPath m ++ "/memory.current") = Some rawCur ->
  parseUint64 (TrimSpace rawCur) = (U, None) ->
  readMemory fs m = (mul (div (ofZ U) (ofZ L)) (ofZ 100), U, L, None).
Proof.
  intros Hmax HL Hcur HU.
  unfold readMemory, readFile. rewrite Hmax. cbv beta iota. cbn [isErr].
  destruct (String.eqb (TrimSpace rawMax) unlimitedValue) eqn:Hs.
  { apply String.eqb_eq in Hs. rewrite Hs, parseUint64_sentinel in HL. discriminate. }
  rewrite HL, Hcur. cbv beta iota. cbn [isErr]. rewrite HU. reflexivity.
Qed.

(** C6. When [memory.max] holds the sentinel [max], or does not parse as an
    unsigned integer, [readMemory] returns [(0, 0, 0)] with no error; when
    it parses and [memory.current] does not, [readMemory] returns a
    percentage of 0 and 0 bytes with the parsed limit, and no error. *)
Theorem readMemory_lenient :
  (forall (fs : FS) (m : Monitor) (rawMax : string),
      fs !! (cgroupPath m ++ "/memory.max") = Some rawMax ->
      TrimSpace rawMax = unlimitedValue \/ snd (parseUint64 (TrimSpace rawMax)) <> None ->
      readMemory fs m = (zero, 0, 0, None))
  /\ (forall (fs : FS) (m : Monitor) (rawMax rawCur : string) (limit : Z),
         fs !! (cgroupPath m ++ "/memory.max") = Some rawMax ->
         parseUint64 (TrimSpace rawMax) = (limit, None) ->
         fs !! (cgroupPath m ++ "/memory.current") = Some rawCur ->
         snd (parseUint64 (TrimSpace rawCur)) <> None ->
         readMemory fs m = (zero, 0, limit, None)).
Proof.
  split.
  - intros fs m rawMax Hmax Hcase.
    unfold readMemory, readFile. rewrite Hmax. cbv beta iota. cbn [isErr].
    destruct (String.eqb (TrimSpace rawMax) unlimitedValue) eqn:Hs; [reflexivity|].
    destruct Hcase as [Hc|Hc]; [apply String.eqb_neq in Hs; contradiction|].
    destruct (parseUint64 (TrimSpace rawMax)) as [limit [e|]]; [reflexivity|].
    cbn [snd] in Hc. congruence.
  - intros fs m rawMax rawCur limit Hmax HL Hcur Hbad.
    unfold readMemory, readFile. rewrite Hmax. cbv beta iota. cbn [isErr].
    destruct (String.eqb (TrimSpace rawMax) unlimitedValue) eqn:Hs.
    { apply String.eqb_eq in Hs. rewrite Hs, parseUint64_sentinel in HL. discriminate. }
    rewrite HL, Hcur. cbv beta iota. cbn [isErr].
    destruct (parseUint64 (TrimSpace rawCur)) as [bytes [e|]]; [reflexivity|].
    cbn [snd] in Hbad. congruence.
Qed.

Lemma readMemory_lenient_witness :
  readMemory (setupTestCgroup testDir badMemoryLimitFiles) testMonitor = (zero, 0, 0, None)
  /\ readMemory (setupTestCgroup testDir badMemoryCurrentFiles) testMonitor
     = (zero, 0, 2147483648, None).
Proof.
  split.
  - apply (proj1 readMemory_lenient _ testMonitor "lots").
    + computed.
    + right. vm_compute. discriminate.
  - apply (proj2 readMemory_lenient _ testMonitor "2147483648" "-1" 2147483648).
    + computed.
    + computed.
    + computed.
    + vm_compute. discriminate.
Defined.

(** C7. When [memory.max] parses to a limit [L > 0] and [memory.current]
    to a usage [U], [readMemory] returns the binary64 value of
    [float64(U) / float64(L) * 100], with [U] and [L] and no error. With
    2147483648 as the limit and 1073741824 as the usage, the percentage is
    the number 50, with these bytes and this limit, from [readMemory] and in
    the snapshot of [Stats], whatever the CPU files hold. *)
Theorem readMemory_percent :
  (forall (fs : FS) (m : Monitor) (rawMax rawCur : string) (L U : Z),
      fs !! (cgroupPath m ++ "/memory.max") = Some rawMax ->
      parseUint64 (TrimSpace rawMax) = (L, None) ->
      0 < L ->
      fs !! (cgroupPath m ++ "/memory.current") = Some rawCur ->
      parseUint64 (TrimSpace rawCur) = (U, None) ->
      readMemory fs m = (mul (div (ofZ U) (ofZ L)) (ofZ 100), U, L, None))
  /\ (forall (fs : FS) (m : Monitor),
         readFile fs (cgroupPath m ++ "/memory.max") = ("2147483648", None) ->
         readFile fs (cgroupPath m ++ "/memory.current") = ("1073741824", None) ->
         readMemory fs m = (ofZ 50, 1073741824, 2147483648, None)
         /\ toZ (fst (fst (fst (readMemory fs m)))) = Some 50)
  /\ (forall (fs : FS) (now : Time) (m : Monitor),
         readFile fs (cgroupPath m ++ "/memory.max") = ("2147483648", None) ->
         readFile fs (cgroupPath m ++ "/memory.current") = ("1073741824", None) ->
         let s := fst (readStats fs now m) in
         MemoryPercent s = ofZ 50
         /\ MemoryBytes s = 1073741824
         /\ MemoryLimitBytes s = 2147483648).
Proof.
  assert (Hfifty : forall (fs : FS) (m : Monitor),
             readFile fs (cgroupPath m ++ "/memory.max") = ("2147483648", None) ->
             readFile fs (cgroupPath m ++ "/memory.current") = ("1073741824", None) ->
             readMemory fs m = (ofZ 50, 1073741824, 2147483648, None)).
  { intros fs m Hmax Hcur. unfold readFile in Hmax, Hcur.
    destruct (fs !! (cgroupPath m ++ "/memory.max")) as [rawMax|] eqn:H1; [|discriminate].
    destruct (fs !! (cgroupPath m ++ "/memory.current")) as [rawCur|] eqn:H2; [|discriminate].
    injection Hmax as Hmax. injection Hcur as Hcur.
    rewrite (readMemory_ratio fs m rawMax rawCur 2147483648 1073741824 H1);
      [| rewrite Hmax; reflexivity | exact H2 | rewrite Hcur; reflexivity ].
    vm_compute. reflexivity. }
  split; [|split].
  - intros fs m rawMax rawCur L U Hmax HL _ Hcur HU.
    exact (readMemory_ratio fs m rawMax rawCur L U Hmax HL Hcur HU).
  - intros fs m Hmax Hcur.
    rewrite (Hfifty fs m Hmax Hcur). split; [reflexivity | vm_compute; reflexivity].
  - intros fs now m Hmax Hcur s. subst s. unfold readStats.
    pose proof (readCPU_cgroupPath fs now m) as Hpath.
    destruct (readCPU fs now m) as [[[cpuPercent cpuLimit] err] m'].
    cbn [snd] in Hpath. rewrite <- Hpath in Hmax, Hcur.
    rewrite (Hfifty fs m' Hmax Hcur). cbn. repeat split; reflexivity.
Qed.

(** [TestMonitor_Stats]. *)
Lemma readMemory_percent_witness :
  readMemory (setupTestCgroup testDir statsFiles) testMonitor
    = (ofZ 50, 1073741824, 2147483648, None)
  /\ readMemory (setupTestCgroup testDir cpuPercentFiles) testMonitor
    = (mul (div (ofZ 536870912) (ofZ 1073741824)) (ofZ 100), 536870912, 1073741824, None).
Proof.
  split.
  - apply (proj1 (proj2 readMemory_percent) (setupTestCgroup testDir statsFiles) testMonitor).
    + computed.
    + computed.
  - apply (proj1 readMemory_percent _ testMonitor "1073741824" "536870912").
    + computed.
    + computed.
    + lia.
    + computed.
    + computed.
Defined.

(** A quotient by zero is an infinity or a NaN, and stays one through the
    operations that follow it in the two percentages. *)
Lemma div_zero_not_finite (x : float64) (s : bool) :
  isFinite (div x (S754_zero s)) = false.
Proof. destruct x as [sx | sx | | sx mx ex]; reflexivity. Qed.

Lemma div_not_finite_l (x y : float64) :
  isFinite x = false -> isFinite (div x y) = false.
Proof.
  destruct x as [sx | sx | | sx mx ex]; try discriminate; intros _;
    destruct y as [sy | sy | | sy my ey]; reflexivity.
Qed.

Lemma mul_hundred_not_finite (x : float64) :
  isFinite x = false -> isFinite (mul x (ofZ 100)) = false.
Proof.
  destruct x as [sx | sx | | sx mx ex]; try discriminate; intros _; reflexivity.
Qed.

(** On a limit that parses to zero, the percentage of [readMemory] is not
    finite, whatever the usage. *)
Lemma readMemory_zero_limit (fs : FS) (m : Monitor) (rawMax rawCur : string) (U : Z) :
  fs !! (cgroupPath m ++ "/memory.max") = Some rawMax ->
  parseUint64 (TrimSpace rawMax) = (0, None) ->
  fs !! (cgroupPath m ++ "/memory.current") = Some rawCur ->
  parseUint64 (TrimSpace rawCur) = (U, None) ->
  isFinite (fst (fst (fst (readMemory fs m)))) = false.
Proof.
  intros Hmax HL Hcur HU.
  rewrite (readMemory_ratio fs m rawMax rawCur 0 U Hmax HL Hcur HU). cbn [fst].
  apply mul_hundred_not_finite. change (ofZ 0) with (S754_zero false).
  apply div_zero_not_finite.
Qed.

(** With a baseline and a counter that did not go back, an elapsed time
    that is not zero and is below one microsecond makes the percentage of
    [readCPU] not finite. *)
Lemma readCPU_sub_microsecond (fs : FS) (now : Time) (m : Monitor)
    (rawMax rawStat : string) (quota period : Z) :
  fs !! (cgroupPath m ++ "/cpu.max") = Some rawMax ->
  validLimit (TrimSpace rawMax) quota period ->
  fs !! (cgroupPath m ++ "/cpu.stat") = Some rawStat ->
  hasBaseline m = true ->
  lastCPUUsageUsec m <= parseCPUStatUsage (TrimSpace rawStat) ->
  Sub now (lastCPUSampleTime m) <> 0 ->
  Microseconds (Sub now (lastCPUSampleTime m)) = 0 ->
  isFinite (fst (fst (fst (readCPU fs now m)))) = false.
Proof.
  intros Hmax Hv Hstat Hb Hle Hnz Hus.
  rewrite (readCPU_valid fs now m rawMax quota period Hmax Hv), Hstat. cbv zeta.
  rewrite Hb. cbn [negb].
  apply Z.ltb_ge in Hle. rewrite Hle.
  apply Z.eqb_neq in Hnz. rewrite Hnz. cbn [fst]. rewrite Hus.
  apply mul_hundred_not_finite, div_not_finite_l.
  change (ofZ 0) with (S754_zero false). apply div_zero_not_finite.
Qed.

(** C4 (defect of the code). Two percentages are quotients by zero.
    [readMemory] has no guard on a limit of zero: on a [memory.max] that
    holds 0 the percentage is an infinity, or a NaN when the usage is 0 as
    well. [readCPU] compares the elapsed time with zero in nanoseconds and
    divides by the elapsed time in whole microseconds: half a microsecond
    after the baseline of [TestMonitor_CPUPercent] the guard is passed, the
    divisor is zero and the percentage is an infinity. *)
Theorem percent_not_finite :
  let fs := setupTestCgroup testDir zeroMemoryLimitFiles in
  let fs0 := writeCgroupFile fs (testDir ++ "/memory.current") "0" in
  let fsc := setupTestCgroup testDir cpuPercentFiles in
  let fsc' := writeCgroupFile fsc (testDir ++ "/cpu.stat") cpuPercentStat in
  let m1 := snd (readCPU fsc 1000 testMonitor) in
  (parseUint64 "0" = (0, None)
   /\ readMemory fs testMonitor = (S754_infinity false, 1073741824, 0, None)
   /\ isFinite (fst (fst (fst (readMemory fs testMonitor)))) = false
   /\ readMemory fs0 testMonitor = (S754_nan, 0, 0, None))
  /\ (m1 = mkMonitor testDir 1000000 1000 true
      /\ Sub 1500 (lastCPUSampleTime m1) = 500
      /\ Microseconds (Sub 1500 (lastCPUSampleTime m1)) = 0
      /\ fst (readCPU fsc' 1500 m1) = (S754_infinity false, ofZ 1, None)
      /\ isFinite (fst (fst (fst (readCPU fsc' 1500 m1)))) = false).
Proof.
  vm_compute. repeat split; reflexivity.
Qed.

(** ** The usage counter *)

Lemma scanUsage_skip (line : string) (rest : list string) :
  (HasPrefix line "usage_usec " = true -> malformedUsage line) ->
  scanUsage (line :: rest) = scanUsage rest.
Proof.
  intros Hskip. cbn [scanUsage].
  destruct (HasPrefix line "usage_usec ") eqn:Hp; cbn [negb]; [|reflexivity].
  cbv zeta.
  destruct (Fields line) as [|k [|v [|x l]]] eqn:HF; try reflexivity.
  cbn [length Nat.eqb negb nth].
  destruct (parseUint64 v) as [val [e|]] eqn:Hv; cbn [isErr]; [reflexivity|].
  exfalso. apply (Hskip eq_refl k v HF). rewrite Hv. reflexivity.
Qed.

Lemma scanUsage_none (lines : list string) :
  (forall line, In line lines ->
                HasPrefix line "usage_usec " = true -> malformedUsage line) ->
  scanUsage lines = 0.
Proof.
  induction lines as [|line rest IH]; intros H; [reflexivity|].
  rewrite scanUsage_skip.
  - apply IH. intros l Hl. apply H. now right.
  - apply H. now left.
Qed.

Lemma scanUsage_found (pre post : list string) (line k v : string) (n : Z) :
  (forall l, In l pre -> HasPrefix l "usage_usec " = true -> malformedUsage l) ->
  HasPrefix line "usage_usec " = true ->
  Fields line = [k; v] ->
  parseUint64 v = (n, None) ->
  scanUsage (pre ++ line :: post) = n.
Proof.
  intros Hpre Hp HF Hv.
  induction pre as [|l pre IH].
  - cbn [app scanUsage]. rewrite Hp, HF. cbn [negb length Nat.eqb nth].
    cbv zeta. rewrite Hv. reflexivity.
  - cbn [app]. rewrite scanUsage_skip.
    + apply IH. intros l' Hl'. apply Hpre. now right.
    + apply Hpre. now left.
Qed.

(** C9. [parseCPUStatUsage] goes through the lines of the payload. It
    returns the number on the first line that starts with [usage_usec ], has
    two fields and an [uint64] as the second one; lines before it that do not
    start with [usage_usec ], or are malformed, are passed over. It returns
    0 when no line starts with [usage_usec ], and when each such line is
    malformed. Its result is an [uint64] in every case, and a call of
    [readCPU] that reads [cpu.stat] under a valid limit returns no error,
    whatever the payload. *)
Theorem parseCPUStatUsage_lenient (content : string) :
  let lines := Split content LF in
  ((forall line, In line lines -> HasPrefix line "usage_usec " = false) ->
   parseCPUStatUsage content = 0)
  /\ ((forall line, In line lines ->
                    HasPrefix line "usage_usec " = true -> malformedUsage line) ->
      parseCPUStatUsage content = 0)
  /\ (forall (pre post : list string) (line k v : string) (n : Z),
         lines = (pre ++ line :: post)%list ->
         (forall l, In l pre -> HasPrefix l "usage_usec " = true -> malformedUsage l) ->
         HasPrefix line "usage_usec " = true ->
         Fields line = [k; v] ->
         parseUint64 v = (n, None) ->
         parseCPUStatUsage content = n)
  /\ 0 <= parseCPUStatUsage content < 2 ^ 64
  /\ (forall (fs : FS) (now : Time) (m : Monitor) (rawMax rawStat : string)
             (quota period : Z),
         fs !! (cgroupPath m ++ "/cpu.max") = Some rawMax ->
         validLimit (TrimSpace rawMax) quota period ->
         fs !! (cgroupPath m ++ "/cpu.stat") = Some rawStat ->
         TrimSpace rawStat = content ->
         snd (fst (readCPU fs now m)) = None).
Proof.
  intros lines. unfold parseCPUStatUsage. fold lines.
  split; [|split; [|split; [|split]]].
  - intros H. apply scanUsage_none. intros line Hin Hp.
    rewrite (H line Hin) in Hp. discriminate.
  - apply scanUsage_none.
  - intros pre post line k v n -> Hpre Hp HF Hv.
    exact (scanUsage_found pre post line k v n Hpre Hp HF Hv).
  - apply scanUsage_range.
  - intros fs now m rawMax rawStat quota period Hmax Hv Hstat _.
    rewrite (readCPU_valid fs now m rawMax quota period Hmax Hv), Hstat. cbv zeta.
    destruct (negb (hasBaseline m)); [reflexivity|].
    destruct (_ <? _); [reflexivity|].
    destruct (_ =? _); reflexivity.
Qed.

(** The table of [TestParseCPUStatUsage]: a usage line that is not the first
    line, no usage line, and usage lines that are all malformed. *)
Lemma parseCPUStatUsage_lenient_witness :
  parseCPUStatUsage usageNotFirst = 99999
  /\ parseCPUStatUsage missingUsage = 0
  /\ parseCPUStatUsage brokenUsage = 0.
Proof.
  split; [|split].
  - apply (proj1 (proj2 (proj2 (parseCPUStatUsage_lenient usageNotFirst)))
             ["nr_periods 100"] ["nr_throttled 5"] "usage_usec 99999" "usage_usec" "99999").
    + computed.
    + intros l [<- | []] Hp. vm_compute in Hp. discriminate.
    + computed.
    + computed.
    + computed.
  - apply (proj1 (parseCPUStatUsage_lenient missingUsage)).
    intros line Hin. vm_compute in Hin.
    destruct Hin as [<- | [<- | []]]; vm_compute; reflexivity.
  - apply (proj1 (proj2 (parseCPUStatUsage_lenient brokenUsage))).
    intros line Hin. vm_compute in Hin.
    destruct Hin as [<- | [<- | [<- | []]]]; intros Hp k v HF; vm_compute in HF.
    + discriminate.
    + injection HF as <- <-. vm_compute. discriminate.
    + vm_compute in Hp. discriminate.
Defined.

(** * Further properties of the package *)

(** ** Strings: white space at the ends *)

Lemma append_nil (s : string) : EmptyString ++ s = s.
Proof. reflexivity. Qed.

Lemma append_cons (c : ascii) (r s : string) : String c r ++ s = String c (r ++ s).
Proof. reflexivity. Qed.

Lemma append_empty_r (s : string) : s ++ EmptyString = s.
Proof. induction s as [|c r IH]; [reflexivity|]. rewrite append_cons, IH. reflexivity. Qed.

Lemma append_assoc (a b c : string) : (a ++ b) ++ c = a ++ (b ++ c).
Proof.
  induction a as [|x r IH]; [reflexivity|]. rewrite !append_cons, IH. reflexivity.
Qed.

Lemma rev_app_rev_app (t cur acc : string) :
  String.rev_app (String.rev_app t cur) acc = String.rev_app cur (t ++ acc).
Proof.
  revert cur acc. induction t as [|c r IH]; intros cur acc; [reflexivity|].
  cbn [String.rev_app]. rewrite IH, append_cons. reflexivity.
Qed.

Lemma rev_app_nonempty (t cur : string) :
  cur <> EmptyString -> String.rev_app t cur <> EmptyString.
Proof.
  revert cur. induction t as [|c r IH]; intros cur H; [exact H|].
  cbn. apply IH. discriminate.
Qed.

Lemma byte_range (c : ascii) : 0 <= byte c < 256.
Proof.
  unfold byte. pose proof (N_ascii_bounded c). lia.
Qed.

Lemma isSpace3_ascii (b0 b1 b2 : Z) : b2 < 128 -> isSpace3 b0 b1 b2 = false.
Proof.
  intros H. unfold isSpace3.
  replace (b2 =? 128) with false by (symmetry; apply Z.eqb_neq; lia).
  replace (128 <=? b2) with false by (symmetry; apply Z.leb_gt; lia).
  replace (b2 =? 168) with false by (symmetry; apply Z.eqb_neq; lia).
  replace (b2 =? 169) with false by (symmetry; apply Z.eqb_neq; lia).
  replace (b2 =? 175) with false by (symmetry; apply Z.eqb_neq; lia).
  replace (b2 =? 159) with false by (symmetry; apply Z.eqb_neq; lia).
  cbn. rewrite !andb_false_r. reflexivity.
Qed.

Lemma isSpace3_lead (b0 b1 b2 : Z) : b0 < 128 -> isSpace3 b0 b1 b2 = false.
Proof.
  intros H. unfold isSpace3.
  replace (b0 =? 225) with false by (symmetry; apply Z.eqb_neq; lia).
  replace (b0 =? 226) with false by (symmetry; apply Z.eqb_neq; lia).
  replace (b0 =? 227) with false by (symmetry; apply Z.eqb_neq; lia).
  reflexivity.
Qed.

Lemma spaceWidth_le (s : string) : (spaceWidth s <= String.length s)%nat.
Proof.
  destruct s as [|c0 [|c1 [|c2 r]]]; cbn [spaceWidth String.length];
    repeat match goal with |- context [if ?b then _ else _] => destruct b end; lia.
Qed.

Lemma spaceWidth_plain (c : ascii) (r : string) :
  isPlain c = true -> spaceWidth (String c r) = 0%nat.
Proof.
  unfold isPlain. intros H. apply andb_prop in H as [Hlt Hsp].
  apply Z.ltb_lt in Hlt. apply negb_true_iff in Hsp.
  cbn [spaceWidth]. rewrite Hsp.
  replace (byte c =? 194) with false by (symmetry; apply Z.eqb_neq; lia).
  cbn [andb].
  destruct r as [|c1 [|c2 r]]; try reflexivity.
  rewrite isSpace3_lead by assumption. reflexivity.
Qed.

Lemma spaceWidth_snoc (s : string) (c : ascii) :
  byte c < 128 -> s <> EmptyString ->
  spaceWidth (s ++ String c EmptyString) = spaceWidth s.
Proof.
  intros Hc Hs.
  destruct s as [|c0 [|c1 [|c2 r]]]; [contradiction| | |];
    rewrite ?append_cons, ?append_nil; cbn [spaceWidth].
  - destruct (asciiSpace c0); [reflexivity|].
    replace (byte c =? 133) with false by (symmetry; apply Z.eqb_neq; lia).
    replace (byte c =? 160) with false by (symmetry; apply Z.eqb_neq; lia).
    rewrite andb_false_r. reflexivity.
  - destruct (asciiSpace c0); [reflexivity|].
    destruct (_ && _); [reflexivity|].
    rewrite isSpace3_ascii by assumption. reflexivity.
  - reflexivity.
Qed.

Lemma allSpaceAux_snoc (s : string) (c : ascii) (k : nat) :
  byte c < 128 -> (k <= String.length s)%nat ->
  allSpaceAux k (s ++ String c EmptyString) = allSpaceAux k s && asciiSpace c.
Proof.
  intros Hc. revert k. induction s as [|a r IH]; intros k Hk.
  - assert (k = 0%nat) by (cbn in Hk; lia). subst k.
    rewrite append_nil. cbn [allSpaceAux spaceWidth].
    destruct (asciiSpace c); reflexivity.
  - destruct k as [|k].
    + transitivity (match spaceWidth (String a r ++ String c EmptyString) with
                    | O => false
                    | S w => allSpaceAux w (r ++ String c EmptyString)
                    end); [reflexivity|].
      rewrite spaceWidth_snoc by (assumption || discriminate).
      pose proof (spaceWidth_le (String a r)) as Hle.
      cbn [allSpaceAux]. destruct (spaceWidth (String a r)) as [|w]; [reflexivity|].
      apply IH. cbn in Hle. lia.
    + rewrite append_cons. cbn [allSpaceAux]. apply IH. cbn in Hk. lia.
Qed.

Lemma trimRight_snoc (s : string) (c : ascii) :
  byte c < 128 ->
  trimRight (s ++ String c EmptyString)
  = if asciiSpace c then trimRight s else s ++ String c EmptyString.
Proof.
  intros Hc. induction s as [|a r IH].
  - rewrite append_nil. cbn [trimRight allSpaceAux spaceWidth].
    destruct (asciiSpace c); reflexivity.
  - transitivity (if allSpaceAux 0 (String a r ++ String c EmptyString) then EmptyString
                  else String a (trimRight (r ++ String c EmptyString))); [reflexivity|].
    rewrite allSpaceAux_snoc by (assumption || (cbn; lia)).
    rewrite IH. cbn [trimRight].
    destruct (asciiSpace c).
    + rewrite andb_true_r. reflexivity.
    + rewrite andb_false_r. reflexivity.
Qed.

Lemma trimLeftAux_snoc (s : string) (c : ascii) (k : nat) :
  byte c < 128 -> (k <= String.length s)%nat ->
  trimLeftAux k (s ++ String c EmptyString)
  = match trimLeftAux k s with
    | EmptyString => if asciiSpace c then EmptyString else String c EmptyString
    | t => t ++ String c EmptyString
    end.
Proof.
  intros Hc. revert k. induction s as [|a r IH]; intros k Hk.
  - assert (k = 0%nat) by (cbn in Hk; lia). subst k.
    rewrite append_nil. cbn [trimLeftAux spaceWidth].
    destruct (asciiSpace c); reflexivity.
  - destruct k as [|k].
    + transitivity (match spaceWidth (String a r ++ String c EmptyString) with
                    | O => String a r ++ String c EmptyString
                    | S w => trimLeftAux w (r ++ String c EmptyString)
                    end); [reflexivity|].
      rewrite spaceWidth_snoc by (assumption || discriminate).
      pose proof (spaceWidth_le (String a r)) as Hle.
      cbn [trimLeftAux]. destruct (spaceWidth (String a r)) as [|w]; [reflexivity|].
      apply IH. cbn in Hle. lia.
    + rewrite append_cons. cbn [trimLeftAux]. apply IH. cbn in Hk. lia.
Qed.

Lemma TrimSpace_snoc_space (s : string) (c : ascii) :
  asciiSpace c = true -> TrimSpace (s ++ String c EmptyString) = TrimSpace s.
Proof.
  intros Hsp.
  assert (Hc : byte c < 128).
  { unfold asciiSpace in Hsp. cbv zeta in Hsp.
    repeat (apply orb_prop in Hsp as [Hsp|Hsp]); apply Z.eqb_eq in Hsp; lia. }
  unfold TrimSpace. rewrite trimLeftAux_snoc by (assumption || lia). rewrite Hsp.
  destruct (trimLeftAux 0 s) as [|a t] eqn:Ht; [reflexivity|].
  rewrite trimRight_snoc by assumption. rewrite Hsp. reflexivity.
Qed.

Lemma snoc_cases (s : string) :
  s = EmptyString \/ exists (s' : string) (c : ascii), s = s' ++ String c EmptyString.
Proof.
  induction s as [|a r IH]; [now left|]. right.
  destruct IH as [-> | (s' & c & ->)].
  - exists EmptyString, a. reflexivity.
  - exists (String a s'), c. reflexivity.
Qed.

Lemma allPlain_append (a b : string) :
  allPlain (a ++ b) = allPlain a && allPlain b.
Proof.
  induction a as [|x r IH]; [reflexivity|].
  rewrite append_cons. cbn [allPlain]. rewrite IH, andb_assoc. reflexivity.
Qed.

Lemma isPlain_ascii (c : ascii) : isPlain c = true -> byte c < 128 /\ asciiSpace c = false.
Proof.
  unfold isPlain. intros H. apply andb_prop in H as [H1 H2].
  apply Z.ltb_lt in H1. apply negb_true_iff in H2. auto.
Qed.

(** A string that starts with no white-space rune and ends with a plain byte
    is left as it is. *)
Lemma TrimSpace_fixed (s : string) (c : ascii) :
  spaceWidth (s ++ String c EmptyString) = 0%nat -> isPlain c = true ->
  TrimSpace (s ++ String c EmptyString) = s ++ String c EmptyString.
Proof.
  intros Hw Hc. apply isPlain_ascii in Hc as [Hlt Hsp].
  unfold TrimSpace.
  assert (Hl : trimLeftAux 0 (s ++ String c EmptyString) = s ++ String c EmptyString).
  { destruct (s ++ String c EmptyString) as [|a r] eqn:E; [reflexivity|].
    cbn [trimLeftAux]. rewrite Hw. reflexivity. }
  rewrite Hl, trimRight_snoc by assumption. rewrite Hsp. reflexivity.
Qed.

Lemma TrimSpace_plain (s : string) :
  allPlain s = true -> TrimSpace s = s.
Proof.
  intros Hs. destruct (snoc_cases s) as [-> | (s' & c & ->)]; [reflexivity|].
  rewrite allPlain_append in Hs. apply andb_prop in Hs as [Hs' Hc].
  cbn [allPlain] in Hc. rewrite andb_true_r in Hc.
  apply TrimSpace_fixed; [|exact Hc].
  destruct s' as [|a r]; [rewrite append_nil | rewrite append_cons];
    apply spaceWidth_plain; [exact Hc|].
  cbn [allPlain] in Hs'. now apply andb_prop in Hs' as [? _].
Qed.

(** ** Strings: fields and lines *)

Lemma fieldsAux_plain (t cur rest : string) :
  allPlain t = true ->
  fieldsAux 0 cur (t ++ rest) = fieldsAux 0 (String.rev_app t cur) rest.
Proof.
  revert cur. induction t as [|c r IH]; intros cur Ht; [reflexivity|].
  cbn [allPlain] in Ht. apply andb_prop in Ht as [Hc Hr].
  rewrite append_cons.
  transitivity (match spaceWidth (String c (r ++ rest)) with
                | O => fieldsAux 0 (String c cur) (r ++ rest)
                | S w => flush cur ++ fieldsAux w EmptyString (r ++ rest)
                end)%list; [reflexivity|].
  rewrite spaceWidth_plain by exact Hc. rewrite IH by exact Hr. reflexivity.
Qed.

Lemma flush_rev_app (t : string) :
  t <> EmptyString -> flush (String.rev_app t EmptyString) = [t].
Proof.
  intros Ht. destruct t as [|c r]; [contradiction|].
  cbn [String.rev_app]. unfold flush.
  destruct (String.rev_app r (String c EmptyString)) eqn:E.
  - exfalso. revert E. apply rev_app_nonempty. discriminate.
  - rewrite <- E. unfold String.rev. rewrite rev_app_rev_app.
    cbn [String.rev_app]. rewrite append_empty_r. reflexivity.
Qed.

Lemma Fields_token (k : string) :
  allPlain k = true -> k <> EmptyString -> Fields k = [k].
Proof.
  intros Hk Hne. unfold Fields.
  rewrite <- (append_empty_r k) at 1. rewrite fieldsAux_plain by exact Hk.
  cbn [fieldsAux]. apply flush_rev_app, Hne.
Qed.

(** Two tokens with one ASCII white-space byte between them are two fields. *)
Lemma Fields_two_tokens (k v : string) (sp : ascii) :
  allPlain k = true -> k <> EmptyString ->
  allPlain v = true -> v <> EmptyString ->
  asciiSpace sp = true ->
  Fields (k ++ String sp v) = [k; v].
Proof.
  intros Hk Hkne Hv Hvne Hsp. unfold Fields.
  rewrite fieldsAux_plain by exact Hk.
  transitivity (match spaceWidth (String sp v) with
                | O => fieldsAux 0 (String sp (String.rev_app k EmptyString)) v
                | S w => flush (String.rev_app k EmptyString) ++ fieldsAux w EmptyString v
                end)%list; [reflexivity|].
  cbn [spaceWidth]. rewrite Hsp.
  rewrite flush_rev_app by exact Hkne.
  change (fieldsAux 0 EmptyString v) with (Fields v).
  rewrite Fields_token by assumption. reflexivity.
Qed.

Lemma Split_noLF (s : string) : noLF s = true -> Split s LF = [s].
Proof.
  induction s as [|c r IH]; intros H; [reflexivity|].
  cbn [noLF] in H. apply andb_prop in H as [Hc Hr]. apply negb_true_iff in Hc.
  cbn [Split]. rewrite Hc, (IH Hr). reflexivity.
Qed.

Lemma Split_nonempty (s : string) : Split s LF <> [].
Proof.
  destruct s as [|c r]; cbn [Split]; [discriminate|].
  destruct (Ascii.eqb c LF); [discriminate|].
  destruct (Split r LF); discriminate.
Qed.

Lemma Split_line (a b : string) :
  noLF a = true -> Split (a ++ String LF b) LF = a :: Split b LF.
Proof.
  induction a as [|c r IH]; intros H.
  - rewrite append_nil. cbn [Split]. rewrite Ascii.eqb_refl. reflexivity.
  - cbn [noLF] in H. apply andb_prop in H as [Hc Hr]. apply negb_true_iff in Hc.
    rewrite append_cons. cbn [Split]. rewrite Hc, (IH Hr). reflexivity.
Qed.

Lemma isDigit_isPlain (c : ascii) : isDigit c = true -> isPlain c = true.
Proof.
  unfold isDigit, isPlain, asciiSpace. intros H. cbv zeta.
  apply andb_prop in H as [H1 H2]. apply Z.leb_le in H1. apply Z.leb_le in H2.
  apply andb_true_intro. split; [apply Z.ltb_lt; lia|].
  apply negb_true_iff.
  repeat (apply orb_false_intro); apply Z.eqb_neq; lia.
Qed.

Lemma allDigits_allPlain (s : string) : allDigits s = true -> allPlain s = true.
Proof.
  induction s as [|c r IH]; [reflexivity|]. cbn [allDigits allPlain].
  intros H. apply andb_prop in H as [Hc Hr].
  rewrite (isDigit_isPlain c Hc), (IH Hr). reflexivity.
Qed.

Lemma allPlain_noLF (s : string) : allPlain s = true -> noLF s = true.
Proof.
  induction s as [|c r IH]; [reflexivity|]. cbn [allPlain noLF].
  intros H. apply andb_prop in H as [Hc Hr]. rewrite (IH Hr), andb_true_r.
  apply negb_true_iff. apply Ascii.eqb_neq. intros ->.
  vm_compute in Hc. discriminate.
Qed.

(** ** Numerals *)

Lemma isDigit_range (c : ascii) : isDigit c = true -> 0 <= byte c - 48 <= 9.
Proof.
  unfold isDigit. intros H. apply andb_prop in H as [H1 H2].
  apply Z.leb_le in H1. apply Z.leb_le in H2. lia.
Qed.

Lemma decimalFrom_ge (s : string) (n : Z) :
  allDigits s = true -> 0 <= n -> n <= decimalFrom n s.
Proof.
  revert n. induction s as [|c r IH]; intros n Hs Hn; cbn [decimalFrom]; [lia|].
  cbn [allDigits] in Hs. apply andb_prop in Hs as [Hc Hr].
  apply isDigit_range in Hc.
  specialize (IH (n * 10 + (byte c - 48)) Hr). lia.
Qed.

Lemma parseUintLoop_digits (s : string) (n : Z) :
  allDigits s = true -> 0 <= n <= maxUint64 ->
  parseUintLoop n s
  = if decimalFrom n s <=? maxUint64 then (decimalFrom n s, None)
    else (maxUint64, Some ErrRange).
Proof.
  revert n. induction s as [|c r IH]; intros n Hs Hn; cbn [parseUintLoop decimalFrom].
  - replace (n <=? maxUint64) with true by (symmetry; apply Z.leb_le; lia). reflexivity.
  - cbn [allDigits] in Hs. apply andb_prop in Hs as [Hc Hr].
    cbv zeta. unfold isDigit in Hc. rewrite Hc. fold (isDigit c) in Hc.
    pose proof (isDigit_range c Hc) as Hd.
    pose proof (decimalFrom_ge r (n * 10 + (byte c - 48)) Hr) as Hge.
    unfold maxUint64 in *.
    destruct (n >=? (2 ^ 64 - 1) / 10 + 1) eqn:Hcut.
    + rewrite Z.geb_leb in Hcut. apply Z.leb_le in Hcut.
      change ((2 ^ 64 - 1) / 10 + 1) with 1844674407370955162 in Hcut.
      replace (decimalFrom (n * 10 + (byte c - 48)) r <=? 2 ^ 64 - 1) with false
        by (symmetry; apply Z.leb_gt; lia).
      reflexivity.
    + rewrite Z.geb_leb in Hcut. apply Z.leb_gt in Hcut.
      change ((2 ^ 64 - 1) / 10 + 1) with 1844674407370955162 in Hcut.
      destruct (n * 10 + (byte c - 48) >? 2 ^ 64 - 1) eqn:Hov.
      * rewrite Z.gtb_ltb in Hov. apply Z.ltb_lt in Hov.
        replace (decimalFrom (n * 10 + (byte c - 48)) r <=? 2 ^ 64 - 1) with false
          by (symmetry; apply Z.leb_gt; lia).
        reflexivity.
      * rewrite Z.gtb_ltb in Hov. apply Z.ltb_ge in Hov.
        apply IH; [exact Hr | lia].
Qed.

Lemma parseUintLoop_nondigit (s : string) (n : Z) :
  allDigits s = false -> snd (parseUintLoop n s) <> None.
Proof.
  revert n. induction s as [|c r IH]; intros n Hs; [discriminate|].
  cbn [allDigits] in Hs. cbn [parseUintLoop]. cbv zeta.
  unfold isDigit in Hs.
  destruct ((48 <=? byte c) && (byte c <=? 57)); [|discriminate].
  cbn [andb] in Hs.
  destruct (n >=? _); [discriminate|].
  destruct (_ >? _); [discriminate|].
  apply IH, Hs.
Qed.

Lemma parseUintLoop_range_error (s : string) (n u : Z) :
  parseUintLoop n s = (u, Some ErrRange) -> u = maxUint64.
Proof.
  revert n. induction s as [|c r IH]; intros n; cbn [parseUintLoop]; [discriminate|].
  cbv zeta. destruct (_ && _); [|discriminate].
  destruct (n >=? _); [now intros [= <-]|].
  destruct (_ >? _); [now intros [= <-]|].
  apply IH.
Qed.

(** What [parseUint64] accepts. *)
Lemma parseUint64_digits (s : string) (v : Z) :
  parseUint64 s = (v, None)
  <-> s <> EmptyString /\ allDigits s = true /\ decimalValue s = v /\ v <= maxUint64.
Proof.
  unfold parseUint64, ParseUint, decimalValue. split.
  - intros H. destruct s as [|c r]; [discriminate|].
    split; [discriminate|].
    destruct (allDigits (String c r)) eqn:Hd.
    + rewrite parseUintLoop_digits in H by (assumption || (unfold maxUint64; lia)).
      destruct (_ <=? _) eqn:Hle; [|discriminate].
      injection H as <-. apply Z.leb_le in Hle. auto.
    + exfalso. apply (parseUintLoop_nondigit _ 0) in Hd. rewrite H in Hd.
      now apply Hd.
  - intros (Hne & Hd & <- & Hle). destruct s as [|c r]; [contradiction|].
    rewrite parseUintLoop_digits by (assumption || (unfold maxUint64; lia)).
    apply Z.leb_le in Hle. rewrite Hle. reflexivity.
Qed.

(** X1. [parseUint64] succeeds exactly on the non-empty strings of decimal
    digits whose value fits 64 bits, and returns that value: no sign, no
    white space, no other base. *)
Theorem parseUint64_decimal (s : string) (v : Z) :
  parseUint64 s = (v, None)
  <-> s <> EmptyString /\ allDigits s = true /\ decimalValue s = v /\ v <= maxUint64.
Proof. exact (parseUint64_digits s v). Qed.

Lemma parseUint64_decimal_witness :
  parseUint64 "18446744073709551615" = (18446744073709551615, None)
  /\ allDigits "007" = true.
Proof.
  split.
  - apply (proj2 (parseUint64_decimal "18446744073709551615" 18446744073709551615)).
    repeat split; solve [discriminate | reflexivity | vm_compute; discriminate].
  - apply (proj1 (parseUint64_decimal "007" 7)). reflexivity.
Defined.

(** What [parseInt64] accepts. *)
Lemma parseInt64_signed (s : string) (v : Z) :
  parseInt64 s = (v, None)
  <-> exists (neg : bool) (d : string),
        (s = d /\ neg = false \/ s = String "+" d /\ neg = false
         \/ s = String "-" d /\ neg = true)
        /\ d <> EmptyString /\ allDigits d = true
        /\ v = (if neg then - decimalValue d else decimalValue d)
        /\ - 2 ^ 63 <= v < 2 ^ 63.
Proof.
  assert (Hcore : forall (neg : bool) (d : string),
             (let '(un, err) := ParseUint d in
              match err with
              | Some ErrRange | None =>
                  if negb neg && (un >=? 2 ^ 63) then (2 ^ 63 - 1, Some ErrRange)
                  else if neg && (un >? 2 ^ 63) then (- 2 ^ 63, Some ErrRange)
                  else (if neg then - un else un, None)
              | Some e => (0, Some e)
              end) = (v, None)
             <-> d <> EmptyString /\ allDigits d = true
                 /\ v = (if neg then - decimalValue d else decimalValue d)
                 /\ - 2 ^ 63 <= v < 2 ^ 63).
  { intros neg d. split.
    - destruct (ParseUint d) as [un [e|]] eqn:Hp.
      + destruct e; try discriminate.
        assert (un = maxUint64).
        { unfold ParseUint in Hp. destruct d; [discriminate|].
          eapply parseUintLoop_range_error, Hp. }
        subst un. destruct neg; cbn; discriminate.
      + apply (proj1 (parseUint64_digits d un)) in Hp as (Hne & Hd & Hv & Hle).
        pose proof (decimalFrom_ge d 0 Hd ltac:(lia)) as Hge.
        unfold decimalValue in *. rewrite Hv in Hge |- *.
        destruct neg; cbn [negb andb].
        * destruct (un >? 2 ^ 63) eqn:Hc; [discriminate|].
          rewrite Z.gtb_ltb in Hc. apply Z.ltb_ge in Hc.
          intros [= <-]. repeat split; auto; lia.
        * destruct (un >=? 2 ^ 63) eqn:Hc; [discriminate|].
          rewrite Z.geb_leb in Hc. apply Z.leb_gt in Hc.
          intros [= <-]. repeat split; auto; lia.
    - intros (Hne & Hd & -> & Hr).
      pose proof (decimalFrom_ge d 0 Hd ltac:(lia)) as Hge. fold (decimalValue d) in Hge.
      assert (Hp : ParseUint d = (decimalValue d, None)).
      { apply (proj2 (parseUint64_digits d (decimalValue d))).
        repeat split; auto. unfold maxUint64. destruct neg; lia. }
      rewrite Hp. destruct neg; cbn [negb andb].
      + replace (decimalValue d >? 2 ^ 63) with false
          by (symmetry; rewrite Z.gtb_ltb; apply Z.ltb_ge; lia).
        reflexivity.
      + replace (decimalValue d >=? 2 ^ 63) with false
          by (symmetry; rewrite Z.geb_leb; apply Z.leb_gt; lia).
        reflexivity. }
  unfold parseInt64, ParseInt. destruct s as [|c r].
  { split; [discriminate|].
    intros (neg & d & Hform & Hne & _).
    destruct Hform as [[Hs _] | [[Hs _] | [Hs _]]];
      [subst d; contradiction | discriminate | discriminate]. }
  cbv zeta.
  destruct (Ascii.eqb c "-") eqn:Hm; [|destruct (Ascii.eqb c "+") eqn:Hp].
  - apply Ascii.eqb_eq in Hm. subst c. cbn [Ascii.eqb Bool.eqb orb].
    rewrite (Hcore true r). split.
    + intros Hr. exists true, r. split; [right; right; auto | exact Hr].
    + intros (neg & d & Hform & Hr).
      destruct Hform as [[Hs Hn] | [[Hs Hn] | [Hs Hn]]].
      * exfalso. subst d. destruct Hr as (_ & Hd & _). vm_compute in Hd. discriminate.
      * discriminate.
      * injection Hs as Hs. subst d neg. exact Hr.
  - apply Ascii.eqb_eq in Hp. subst c. cbn [orb].
    rewrite (Hcore false r). split.
    + intros Hr. exists false, r. split; [right; left; auto | exact Hr].
    + intros (neg & d & Hform & Hr).
      destruct Hform as [[Hs Hn] | [[Hs Hn] | [Hs Hn]]].
      * exfalso. subst d. destruct Hr as (_ & Hd & _). vm_compute in Hd. discriminate.
      * injection Hs as Hs. subst d neg. exact Hr.
      * discriminate.
  - cbn [orb]. rewrite (Hcore false (String c r)). split.
    + intros Hr. exists false, (String c r). split; [left; auto | exact Hr].
    + intros (neg & d & Hform & Hr).
      destruct Hform as [[Hs Hn] | [[Hs Hn] | [Hs Hn]]].
      * subst d neg. exact Hr.
      * injection Hs as Hc _. subst c. rewrite Ascii.eqb_refl in Hp. discriminate.
      * injection Hs as Hc _. subst c. rewrite Ascii.eqb_refl in Hm. discriminate.
Qed.

(** X2. [parseInt64] succeeds exactly on an optional sign [+] or [-]
    followed by a non-empty string of decimal digits whose signed value fits
    64 bits, and returns that value. *)
Theorem parseInt64_decimal (s : string) (v : Z) :
  parseInt64 s = (v, None)
  <-> exists (neg : bool) (d : string),
        (s = d /\ neg = false \/ s = String "+" d /\ neg = false
         \/ s = String "-" d /\ neg = true)
        /\ d <> EmptyString /\ allDigits d = true
        /\ v = (if neg then - decimalValue d else decimalValue d)
        /\ - 2 ^ 63 <= v < 2 ^ 63.
Proof. exact (parseInt64_signed s v). Qed.

Lemma parseInt64_decimal_witness :
  parseInt64 "-9223372036854775808" = (- 9223372036854775808, None)
  /\ parseInt64 "+100000" = (100000, None).
Proof.
  split.
  - apply (proj2 (parseInt64_decimal "-9223372036854775808" (- 9223372036854775808))).
    exists true, "9223372036854775808". split; [right; right; auto|].
    repeat split; solve [discriminate | reflexivity | vm_compute; discriminate].
  - apply (proj2 (parseInt64_decimal "+100000" 100000)).
    exists false, "100000". split; [right; left; auto|].
    repeat split; solve [discriminate | reflexivity | vm_compute; discriminate].
Defined.

(** ** The limit, from the text of [cpu.max] *)

Lemma TrimSpace_two_tokens (k v : string) (sp : ascii) :
  allPlain k = true -> k <> EmptyString ->
  allPlain v = true -> v <> EmptyString ->
  TrimSpace (k ++ String sp v) = k ++ String sp v.
Proof.
  intros Hk Hkne Hv Hvne.
  destruct (snoc_cases v) as [-> | (v' & c & ->)]; [contradiction|].
  rewrite allPlain_append in Hv. apply andb_prop in Hv as [_ Hc].
  cbn [allPlain] in Hc. rewrite andb_true_r in Hc.
  replace (k ++ String sp (v' ++ String c EmptyString))
    with ((k ++ String sp v') ++ String c EmptyString)
    by (rewrite append_assoc, append_cons; reflexivity).
  apply TrimSpace_fixed; [|exact Hc].
  destruct k as [|a r]; [contradiction|].
  rewrite !append_cons. apply spaceWidth_plain.
  cbn [allPlain] in Hk. now apply andb_prop in Hk as [? _].
Qed.

Lemma readCPU_limitCores (fs : FS) (now : Time) (m : Monitor)
    (raw : string) (quota period : Z) :
  fs !! (cgroupPath m ++ "/cpu.max") = Some raw ->
  validLimit (TrimSpace raw) quota period ->
  snd (fst (fst (readCPU fs now m))) = div (ofZ quota) (ofZ period).
Proof.
  intros Hmax Hv. rewrite (readCPU_valid fs now m raw quota period Hmax Hv). cbv zeta.
  destruct (fs !! (cgroupPath m ++ "/cpu.stat")); [|reflexivity].
  destruct (negb (hasBaseline m)); [reflexivity|].
  destruct (_ <? _); [reflexivity|].
  destruct (_ =? _); reflexivity.
Qed.

(** X3. A [cpu.max] that holds a quota and a period in decimal, both
    positive and below 2^63, one space between them, with or without the
    line feed at its end, is a valid limit, and [readCPU] returns
    [float64(quota) / float64(period)] as the limit in every outcome. *)
Theorem readCPU_limit_decimal (fs : FS) (now : Time) (m : Monitor)
    (q p : string) (nl : bool) :
  allDigits q = true -> allDigits p = true ->
  0 < decimalValue q < 2 ^ 63 ->
  0 < decimalValue p < 2 ^ 63 ->
  fs !! (cgroupPath m ++ "/cpu.max")
    = Some (q ++ " " ++ p ++ (if nl then String LF EmptyString else EmptyString)) ->
  validLimit (q ++ " " ++ p) (decimalValue q) (decimalValue p)
  /\ snd (fst (fst (readCPU fs now m)))
     = div (ofZ (decimalValue q)) (ofZ (decimalValue p)).
Proof.
  intros Hq Hp Hqv Hpv Hmax.
  assert (Hqne : q <> EmptyString) by (intros ->; cbn in Hqv; lia).
  assert (Hpne : p <> EmptyString) by (intros ->; cbn in Hpv; lia).
  assert (Hv : validLimit (q ++ " " ++ p) (decimalValue q) (decimalValue p)).
  { exists q, p. split; [|split; [|split; [|split; [|split]]]].
    - apply (Fields_two_tokens q p " "); auto using allDigits_allPlain.
    - intros ->. vm_compute in Hq. discriminate.
    - apply (proj2 (parseInt64_signed q (decimalValue q))).
      exists false, q. split; [left; auto|].
      split; [exact Hqne|]. split; [exact Hq|]. split; [reflexivity|]. lia.
    - lia.
    - apply (proj2 (parseInt64_signed p (decimalValue p))).
      exists false, p. split; [left; auto|].
      split; [exact Hpne|]. split; [exact Hp|]. split; [reflexivity|]. lia.
    - lia. }
  split; [exact Hv|].
  apply (readCPU_limitCores fs now m _ _ _ Hmax).
  assert (Ht : TrimSpace (q ++ " " ++ p) = q ++ " " ++ p)
    by (apply (TrimSpace_two_tokens q p " "); auto using allDigits_allPlain).
  destruct nl.
  - replace (q ++ " " ++ p ++ String LF EmptyString)
      with ((q ++ " " ++ p) ++ String LF EmptyString)
      by (rewrite append_assoc; reflexivity).
    rewrite TrimSpace_snoc_space by reflexivity. rewrite Ht. exact Hv.
  - rewrite append_empty_r, Ht. exact Hv.
Qed.

(** ** The usage counter, from the text of [cpu.stat] *)

Lemma HasPrefix_usage (ds : string) :
  HasPrefix ("usage_usec " ++ ds) "usage_usec " = true.
Proof.
  unfold HasPrefix. destruct ds; vm_compute; reflexivity.
Qed.

(** X4. A line that does not start with [usage_usec ] is passed over:
    the usage counter of a payload is that of the lines after it. *)
Theorem parseCPUStatUsage_other_line (line rest : string) :
  noLF line = true ->
  HasPrefix line "usage_usec " = false ->
  parseCPUStatUsage (line ++ String LF rest) = parseCPUStatUsage rest.
Proof.
  intros Hl Hp. unfold parseCPUStatUsage.
  rewrite Split_line by exact Hl. cbn [scanUsage]. rewrite Hp. reflexivity.
Qed.

Lemma parseCPUStatUsage_other_line_witness :
  parseCPUStatUsage ("nr_periods 100" ++ String LF "usage_usec 99999")
  = parseCPUStatUsage "usage_usec 99999".
Proof.
  apply parseCPUStatUsage_other_line; reflexivity.
Defined.

(** X5. A line [usage_usec <digits>] gives the value of the digits, whatever
    follows it; when that value does not fit 64 bits the line is passed over
    like a malformed one, so that a payload of this one line gives 0. *)
Theorem parseCPUStatUsage_usage_line (ds : string) :
  allDigits ds = true -> ds <> EmptyString ->
  (forall rest : string,
      parseCPUStatUsage ("usage_usec " ++ ds ++ String LF rest)
      = if decimalValue ds <=? maxUint64 then decimalValue ds
        else parseCPUStatUsage rest)
  /\ parseCPUStatUsage ("usage_usec " ++ ds)
     = if decimalValue ds <=? maxUint64 then decimalValue ds else 0.
Proof.
  intros Hd Hne.
  assert (Hplain : allPlain ds = true) by (apply allDigits_allPlain, Hd).
  assert (HnoLF : noLF ("usage_usec " ++ ds) = true).
  { change (noLF ("usage_usec " ++ ds)) with (noLF ds).
    apply allPlain_noLF, Hplain. }
  assert (HF : Fields ("usage_usec " ++ ds) = ["usage_usec"; ds]).
  { change ("usage_usec " ++ ds) with ("usage_usec" ++ String " " ds).
    apply Fields_two_tokens; solve [reflexivity | discriminate | assumption]. }
  assert (Hp : parseUint64 ds
               = if decimalValue ds <=? maxUint64 then (decimalValue ds, None)
                 else (maxUint64, Some ErrRange)).
  { unfold parseUint64, ParseUint. destruct ds as [|c r]; [contradiction|].
    apply parseUintLoop_digits; [exact Hd | unfold maxUint64; lia]. }
  assert (Hscan : forall lines,
             scanUsage (("usage_usec " ++ ds) :: lines)
             = if decimalValue ds <=? maxUint64 then decimalValue ds
               else scanUsage lines).
  { intros lines. cbn [scanUsage]. rewrite HasPrefix_usage, HF. cbv zeta.
    cbn [negb length Nat.eqb nth]. rewrite Hp.
    destruct (decimalValue ds <=? maxUint64); reflexivity. }
  split.
  - intros rest. unfold parseCPUStatUsage.
    replace ("usage_usec " ++ ds ++ String LF rest)
      with (("usage_usec " ++ ds) ++ String LF rest)
      by (rewrite append_assoc; reflexivity).
    rewrite Split_line by exact HnoLF. apply Hscan.
  - unfold parseCPUStatUsage. rewrite Split_noLF by exact HnoLF. apply Hscan.
Qed.

Lemma parseCPUStatUsage_usage_line_witness :
  parseCPUStatUsage "usage_usec 1000000" = 1000000
  /\ parseCPUStatUsage "usage_usec 18446744073709551616" = 0.
Proof.
  split.
  - apply (proj2 (parseCPUStatUsage_usage_line "1000000" eq_refl ltac:(discriminate))).
  - apply (proj2 (parseCPUStatUsage_usage_line "18446744073709551616"
                    eq_refl ltac:(discriminate))).
Defined.

(** ** The files *)

(** [readCPU] reads [fs] through [readFile] on its two files only. *)
Lemma readCPU_ext (fs1 fs2 : FS) (now : Time) (m : Monitor) :
  readFile fs1 (cgroupPath m ++ "/cpu.max") = readFile fs2 (cgroupPath m ++ "/cpu.max") ->
  readFile fs1 (cgroupPath m ++ "/cpu.stat") = readFile fs2 (cgroupPath m ++ "/cpu.stat") ->
  readCPU fs1 now m = readCPU fs2 now m.
Proof.
  intros H1 H2. unfold readCPU. rewrite H1, H2. reflexivity.
Qed.

Lemma readMemory_ext (fs1 fs2 : FS) (m1 m2 : Monitor) :
  cgroupPath m1 = cgroupPath m2 ->
  readFile fs1 (cgroupPath m1 ++ "/memory.max")
  = readFile fs2 (cgroupPath m1 ++ "/memory.max") ->
  readFile fs1 (cgroupPath m1 ++ "/memory.current")
  = readFile fs2 (cgroupPath m1 ++ "/memory.current") ->
  readMemory fs1 m1 = readMemory fs2 m2.
Proof.
  intros Hp H1 H2. unfold readMemory. rewrite <- Hp, H1, H2. reflexivity.
Qed.

Lemma readFile_newlineTerminated (fs : FS) (path : string) :
  readFile (newlineTerminated fs) path = readFile fs path.
Proof.
  unfold readFile, newlineTerminated. rewrite lookup_fmap.
  destruct (fs !! path) as [content|]; [|reflexivity].
  cbn [fmap option_fmap option_map]. rewrite TrimSpace_snoc_space by reflexivity.
  reflexivity.
Qed.

(** X6. The line feed that the kernel writes at the end of its files does
    not count: with one appended to every file, [readCPU], [readMemory] and
    [Stats] return what they return on the files as the tests write them. *)
Theorem newline_insensitive (fs : FS) (now : Time) (m : Monitor) :
  readCPU (newlineTerminated fs) now m = readCPU fs now m
  /\ readMemory (newlineTerminated fs) m = readMemory fs m
  /\ readStats (newlineTerminated fs) now m = readStats fs now m.
Proof.
  assert (Hc : forall now m, readCPU (newlineTerminated fs) now m = readCPU fs now m)
    by (intros; apply readCPU_ext; apply readFile_newlineTerminated).
  assert (Hm : forall m, readMemory (newlineTerminated fs) m = readMemory fs m)
    by (intros; apply readMemory_ext;
        [reflexivity | apply readFile_newlineTerminated ..]).
  split; [apply Hc | split; [apply Hm|]].
  unfold readStats. rewrite Hc.
  destruct (readCPU fs now m) as [[[cpuPercent cpuLimit] err] m'].
  rewrite Hm. reflexivity.
Qed.

(** ** The snapshot *)

(** X7. [Stats] returns the percentage and the limit of [readCPU], and the
    percentage, the bytes and the limit that [readMemory] returns on the
    monitor as it was before the call: the CPU read that comes first does
    not change what the memory read sees. The monitor after [Stats] is the
    one after [readCPU], and the snapshot agrees with the methods
    [CPUPercent] and [MemoryPercent]. *)
Theorem readStats_components (fs : FS) (now : Time) (m : Monitor) :
  let '(cpuPercent, cpuLimit, _) := fst (readCPU fs now m) in
  let '(memPercent, memBytes, memLimit, _) := readMemory fs m in
  readStats fs now m
  = (mkStats cpuPercent memPercent memBytes memLimit cpuLimit, snd (readCPU fs now m))
  /\ Monitor_CPUPercent fs now m = (cpuPercent, snd (readCPU fs now m))
  /\ Monitor_MemoryPercent fs m = memPercent.
Proof.
  unfold readStats, Monitor_CPUPercent, Monitor_MemoryPercent.
  pose proof (readCPU_cgroupPath fs now m) as Hpath.
  destruct (readCPU fs now m) as [[[cpuPercent cpuLimit] err] m']. cbn [fst snd] in *.
  rewrite (readMemory_ext fs fs m' m Hpath eq_refl eq_refl).
  destruct (readMemory fs m) as [[[memPercent memBytes] memLimit] merr].
  repeat split; reflexivity.
Qed.

(** X8. Without [cpu.max] and [memory.max], as outside a container, [Stats]
    returns a snapshot of zeros and the monitor as it was. *)
Theorem readStats_no_files (fs : FS) (now : Time) (m : Monitor) :
  fs !! (cgroupPath m ++ "/cpu.max") = None ->
  fs !! (cgroupPath m ++ "/memory.max") = None ->
  readStats fs now m = (mkStats zero zero 0 0 zero, m).
Proof.
  intros Hc Hm. unfold readStats. rewrite (readCPU_unreadable fs now m Hc).
  unfold readMemory, readFile. rewrite Hm. reflexivity.
Qed.

Lemma readStats_no_files_witness :
  readStats ∅ 1000 testMonitor = (mkStats zero zero 0 0 zero, testMonitor).
Proof.
  apply readStats_no_files; reflexivity.
Defined.

(** ** The CPU sampler: the sample after the baseline *)

(** The branch of [readCPU] that computes the percentage. *)
Lemma readCPU_sample (fs : FS) (now : Time) (m : Monitor)
    (rawMax rawStat : string) (quota period : Z) :
  fs !! (cgroupPath m ++ "/cpu.max") = Some rawMax ->
  validLimit (TrimSpace rawMax) quota period ->
  fs !! (cgroupPath m ++ "/cpu.stat") = Some rawStat ->
  hasBaseline m = true ->
  0 <= lastCPUUsageUsec m <= parseCPUStatUsage (TrimSpace rawStat) ->
  Sub now (lastCPUSampleTime m) <> 0 ->
  readCPU fs now m =
    let usage := parseCPUStatUsage (TrimSpace rawStat) in
    let limitCores := div (ofZ quota) (ofZ period) in
    ((mul (div (div (ofZ (usage - lastCPUUsageUsec m))
                    (ofZ (Microseconds (Sub now (lastCPUSampleTime m)))))
               limitCores)
          (ofZ 100),
      limitCores, None),
     mkMonitor (cgroupPath m) usage now true).
Proof.
  intros Hmax Hv Hstat Hb [H0 Hle] Hnz.
  rewrite (readCPU_valid fs now m rawMax quota period Hmax Hv), Hstat. cbv zeta.
  rewrite Hb. cbn [negb].
  replace (_ <? _) with false by (symmetry; apply Z.ltb_ge; exact Hle).
  apply Z.eqb_neq in Hnz. rewrite Hnz.
  unfold subUint64. rewrite Z.mod_small; [reflexivity|].
  pose proof (scanUsage_range (Split (TrimSpace rawStat) LF)) as Hr.
  fold (parseCPUStatUsage (TrimSpace rawStat)) in Hr. lia.
Qed.

(** X9. With a baseline, a usage counter that did not go back and a clock
    that moved, [readCPU] returns
    [(usage - last) / elapsedMicroseconds / limitCores * 100], where the
    subtraction on [uint64] does not wrap, and stores [(usage, now)]. *)
Theorem readCPU_delta (fs : FS) (now : Time) (m : Monitor)
    (rawMax rawStat : string) (quota period : Z) :
  fs !! (cgroupPath m ++ "/cpu.max") = Some rawMax ->
  validLimit (TrimSpace rawMax) quota period ->
  fs !! (cgroupPath m ++ "/cpu.stat") = Some rawStat ->
  hasBaseline m = true ->
  0 <= lastCPUUsageUsec m <= parseCPUStatUsage (TrimSpace rawStat) ->
  Sub now (lastCPUSampleTime m) <> 0 ->
  readCPU fs now m =
    let usage := parseCPUStatUsage (TrimSpace rawStat) in
    let limitCores := div (ofZ quota) (ofZ period) in
    ((mul (div (div (ofZ (usage - lastCPUUsageUsec m))
                    (ofZ (Microseconds (Sub now (lastCPUSampleTime m)))))
               limitCores)
          (ofZ 100),
      limitCores, None),
     mkMonitor (cgroupPath m) usage now true).
Proof. exact (readCPU_sample fs now m rawMax rawStat quota period). Qed.

(** The second call of [TestMonitor_CPUPercent], 10 ms after the first one:
    100 ms of CPU time on one core, 1000 percent. *)
Lemma readCPU_delta_witness :
  readCPU (writeCgroupFile (setupTestCgroup testDir cpuPercentFiles)
             (testDir ++ "/cpu.stat") cpuPercentStat)
          10001000 (mkMonitor testDir 1000000 1000 true)
  = ((ofZ 1000, ofZ 1, None), mkMonitor testDir 1100000 10001000 true).
Proof.
  apply (readCPU_delta _ 10001000 (mkMonitor testDir 1000000 1000 true)
           "100000 100000" "usage_usec 1100000" 100000 100000).
  - computed.
  - valid_limit "100000" "100000".
  - computed.
  - reflexivity.
  - vm_compute. split; discriminate.
  - vm_compute. discriminate.
Defined.

(** X10. The percentage of [readCPU] is 0 unless the call computes it: a
    call that returns another percentage found a baseline, a valid limit, a
    usage counter that did not go back and a clock that moved. So the first
    call on a new monitor returns 0 whatever the files hold. *)
Theorem readCPU_percent_zero_unless (fs : FS) (now : Time) (m : Monitor) :
  fst (fst (fst (readCPU fs now m))) <> zero ->
  hasBaseline m = true
  /\ takesSample (cgroupPath m) fs
  /\ Sub now (lastCPUSampleTime m) <> 0
  /\ exists rawStat : string,
       fs !! (cgroupPath m ++ "/cpu.stat") = Some rawStat
       /\ lastCPUUsageUsec m <= parseCPUStatUsage (TrimSpace rawStat).
Proof.
  destruct (readCPU_cases fs m) as [H | [(raw & H & Hno) | (raw & quota & period & H & Hv)]].
  - rewrite (readCPU_unreadable fs now m H). intros Hn. now contradiction Hn.
  - rewrite (readCPU_invalid fs now m raw H Hno). intros Hn. now contradiction Hn.
  - rewrite (readCPU_valid fs now m raw quota period H Hv). cbv zeta.
    destruct (fs !! (cgroupPath m ++ "/cpu.stat")) as [rawStat|] eqn:Hs;
      [|intros Hn; now contradiction Hn].
    destruct (hasBaseline m); cbn [negb]; [|intros Hn; now contradiction Hn].
    destruct (_ <? _) eqn:Hlt; [intros Hn; now contradiction Hn|].
    destruct (_ =? _) eqn:Hz; [intros Hn; now contradiction Hn|].
    intros _. apply Z.ltb_ge in Hlt. apply Z.eqb_neq in Hz.
    split; [reflexivity|]. split; [exists raw, rawStat, quota, period; auto|].
    split; [exact Hz|]. exists rawStat. auto.
Qed.

Lemma readCPU_percent_zero_unless_witness :
  hasBaseline (mkMonitor testDir 1000000 1000 true) = true
  /\ Sub 10001000 1000 <> 0.
Proof.
  pose proof (readCPU_percent_zero_unless
                (writeCgroupFile (setupTestCgroup testDir cpuPercentFiles)
                   (testDir ++ "/cpu.stat") cpuPercentStat)
                10001000 (mkMonitor testDir 1000000 1000 true)) as H.
  destruct H as (Hb & _ & Hz & _).
  - vm_compute. discriminate.
  - split; [exact Hb | exact Hz].
Defined.

(** X11. From a monitor without a baseline, two calls that take a sample
    give 0 then the percentage of the difference of the two samples: the
    usage of the second minus that of the first, over the microseconds
    between the two clock readings, over the limit of the second call. *)
Theorem readCPU_two_calls (fs1 fs2 : FS) (t1 t2 : Time) (m : Monitor)
    (rawMax1 rawStat1 rawMax2 rawStat2 : string) (quota1 period1 quota2 period2 : Z) :
  hasBaseline m = false ->
  fs1 !! (cgroupPath m ++ "/cpu.max") = Some rawMax1 ->
  validLimit (TrimSpace rawMax1) quota1 period1 ->
  fs1 !! (cgroupPath m ++ "/cpu.stat") = Some rawStat1 ->
  fs2 !! (cgroupPath m ++ "/cpu.max") = Some rawMax2 ->
  validLimit (TrimSpace rawMax2) quota2 period2 ->
  fs2 !! (cgroupPath m ++ "/cpu.stat") = Some rawStat2 ->
  parseCPUStatUsage (TrimSpace rawStat1) <= parseCPUStatUsage (TrimSpace rawStat2) ->
  Sub t2 t1 <> 0 ->
  let u1 := parseCPUStatUsage (TrimSpace rawStat1) in
  let u2 := parseCPUStatUsage (TrimSpace rawStat2) in
  let '(r1, m1) := readCPU fs1 t1 m in
  let '(r2, m2) := readCPU fs2 t2 m1 in
  fst (fst r1) = zero
  /\ fst (fst r2)
     = mul (div (div (ofZ (u2 - u1)) (ofZ (Microseconds (Sub t2 t1))))
                (div (ofZ quota2) (ofZ period2)))
           (ofZ 100)
  /\ m2 = mkMonitor (cgroupPath m) u2 t2 true.
Proof.
  intros Hb Hmax1 Hv1 Hstat1 Hmax2 Hv2 Hstat2 Hle Hnz. cbv zeta.
  rewrite (readCPU_valid fs1 t1 m rawMax1 quota1 period1 Hmax1 Hv1), Hstat1. cbv zeta.
  rewrite Hb. cbn [negb].
  pose proof (scanUsage_range (Split (TrimSpace rawStat1) LF)) as Hr.
  fold (parseCPUStatUsage (TrimSpace rawStat1)) in Hr.
  rewrite (readCPU_sample fs2 t2
             (mkMonitor (cgroupPath m) (parseCPUStatUsage (TrimSpace rawStat1)) t1 true)
             rawMax2 rawStat2 quota2 period2);
    [ | assumption | assumption | assumption | reflexivity
      | cbn [lastCPUUsageUsec]; lia | exact Hnz ].
  cbv zeta. repeat split; reflexivity.
Qed.

(** [TestMonitor_CPUPercent], the two calls 10 ms apart. *)
Lemma readCPU_two_calls_witness :
  let fs := setupTestCgroup testDir cpuPercentFiles in
  let fs' := writeCgroupFile fs (testDir ++ "/cpu.stat") cpuPercentStat in
  let '(r1, m1) := readCPU fs 1000 testMonitor in
  let '(r2, m2) := readCPU fs' 10001000 m1 in
  fst (fst r1) = zero /\ fst (fst r2) = ofZ 1000
  /\ m2 = mkMonitor testDir 1100000 10001000 true.
Proof.
  apply (readCPU_two_calls
           (setupTestCgroup testDir cpuPercentFiles)
           (writeCgroupFile (setupTestCgroup testDir cpuPercentFiles)
              (testDir ++ "/cpu.stat") cpuPercentStat)
           1000 10001000 testMonitor
           "100000 100000" "usage_usec 1000000" "100000 100000" "usage_usec 1100000"
           100000 100000 100000 100000).
  - reflexivity.
  - computed.
  - valid_limit "100000" "100000".
  - computed.
  - computed.
  - valid_limit "100000" "100000".
  - computed.
  - vm_compute. discriminate.
  - vm_compute. discriminate.
Defined.

(** ** Errors *)

(** X12. [readCPU] returns an error exactly when a file cannot be read:
    [cpu.max], or [cpu.stat] once the limit is valid, and the error names
    that file. A payload that does not parse never gives an error. With an
    error the percentage is 0 and the monitor is as it was. *)
Theorem readCPU_error (fs : FS) (now : Time) (m : Monitor) (e : error) :
  (snd (fst (readCPU fs now m)) = Some e
   <-> (fs !! (cgroupPath m ++ "/cpu.max") = None
        /\ e = ErrRead (cgroupPath m ++ "/cpu.max"))
       \/ ((exists (raw : string) (quota period : Z),
              fs !! (cgroupPath m ++ "/cpu.max") = Some raw
              /\ validLimit (TrimSpace raw) quota period)
           /\ fs !! (cgroupPath m ++ "/cpu.stat") = None
           /\ e = ErrRead (cgroupPath m ++ "/cpu.stat")))
  /\ (snd (fst (readCPU fs now m)) <> None ->
      fst (fst (fst (readCPU fs now m))) = zero /\ snd (readCPU fs now m) = m).
Proof.
  destruct (readCPU_cases fs m) as [H | [(raw & H & Hno) | (raw & quota & period & H & Hv)]].
  - rewrite (readCPU_unreadable fs now m H). cbn [fst snd]. split; [|auto]. split.
    + intros [= <-]. left. auto.
    + intros [[_ ->] | ((raw & quota & period & H' & _) & _)]; [reflexivity | congruence].
  - rewrite (readCPU_invalid fs now m raw H Hno). cbn [fst snd]. split; [|auto]. split.
    + discriminate.
    + intros [[H' _] | ((raw' & quota & period & H' & Hv) & _)]; [congruence|].
      exfalso. apply Hno. exists quota, period.
      assert (raw' = raw) by congruence. subst. exact Hv.
  - rewrite (readCPU_valid fs now m raw quota period H Hv). cbv zeta.
    destruct (fs !! (cgroupPath m ++ "/cpu.stat")) as [rawStat|] eqn:Hs.
    + assert (Hnot : ~ ((fs !! (cgroupPath m ++ "/cpu.max") = None
                         /\ e = ErrRead (cgroupPath m ++ "/cpu.max"))
                        \/ ((exists (raw : string) (quota period : Z),
                               fs !! (cgroupPath m ++ "/cpu.max") = Some raw
                               /\ validLimit (TrimSpace raw) quota period)
                            /\ Some rawStat = None
                            /\ e = ErrRead (cgroupPath m ++ "/cpu.stat")))).
      { intros [[H' _] | (_ & H' & _)]; congruence. }
      destruct (negb (hasBaseline m)); [|destruct (_ <? _); [|destruct (_ =? _)]];
        cbn [fst snd];
        (split; [split; [discriminate | intros Hc; exfalso; apply Hnot; exact Hc]
                | intros Hn; now contradiction Hn]).
    + cbn [fst snd]. split; [|auto]. split.
      * intros [= <-]. right. split; [exists raw, quota, period; auto | auto].
      * intros [[H' _] | (_ & _ & ->)]; [congruence | reflexivity].
Qed.

Lemma readCPU_error_witness :
  snd (fst (readCPU (setupTestCgroup testDir limitsOnlyFiles) 1000 testMonitor))
  = Some (ErrRead (testDir ++ "/cpu.stat"))
  /\ fst (fst (fst (readCPU ∅ 1000 testMonitor))) = zero.
Proof.
  split.
  - apply (proj2 (proj1 (readCPU_error (setupTestCgroup testDir limitsOnlyFiles)
                           1000 testMonitor (ErrRead (testDir ++ "/cpu.stat"))))).
    right. split; [|split; [computed | reflexivity]].
    exists "50000 100000", 50000, 100000. split; [computed|].
    valid_limit "50000" "100000".
  - apply (proj2 (readCPU_error ∅ 1000 testMonitor ErrSyntax)).
    vm_compute. discriminate.
Defined.

(** X13. [readMemory] returns an error exactly when [memory.max] cannot be
    read, or [memory.current] once the limit is parsed, and the error names
    that file; with an error the percentage and the bytes are 0. *)
Theorem readMemory_error (fs : FS) (m : Monitor) (e : error) :
  (snd (readMemory fs m) = Some e
   <-> (fs !! (cgroupPath m ++ "/memory.max") = None
        /\ e = ErrRead (cgroupPath m ++ "/memory.max"))
       \/ ((exists (raw : string) (limit : Z),
              fs !! (cgroupPath m ++ "/memory.max") = Some raw
              /\ parseUint64 (TrimSpace raw) = (limit, None))
           /\ fs !! (cgroupPath m ++ "/memory.current") = None
           /\ e = ErrRead (cgroupPath m ++ "/memory.current")))
  /\ (snd (readMemory fs m) <> None ->
      fst (fst (fst (readMemory fs m))) = zero /\ snd (fst (fst (readMemory fs m))) = 0).
Proof.
  unfold readMemory, readFile.
  destruct (fs !! (cgroupPath m ++ "/memory.max")) as [raw|] eqn:Hmax; cbv beta iota;
    cbn [isErr].
  2:{ cbn [fst snd]. split; [|auto]. split.
      - intros [= <-]. left; auto.
      - intros [[_ ->] | ((raw & limit & H' & _) & _)]; [reflexivity | discriminate]. }
  destruct (String.eqb (TrimSpace raw) unlimitedValue) eqn:Hs.
  { cbn [fst snd]. split; [|intros Hn; now contradiction Hn]. split; [discriminate|].
    intros [[H' _] | ((raw' & limit & H' & Hp) & _)]; [discriminate|].
    injection H' as <-. apply String.eqb_eq in Hs.
    rewrite Hs, parseUint64_sentinel in Hp. discriminate. }
  destruct (parseUint64 (TrimSpace raw)) as [limit [pe|]] eqn:Hp; cbn [isErr].
  { cbn [fst snd]. split; [|intros Hn; now contradiction Hn]. split; [discriminate|].
    intros [[H' _] | ((raw' & limit' & H' & Hp') & _)]; [discriminate|].
    injection H' as <-. congruence. }
  destruct (fs !! (cgroupPath m ++ "/memory.current")) as [rawCur|] eqn:Hcur;
    cbv beta iota; cbn [isErr].
  - destruct (parseUint64 (TrimSpace rawCur)) as [b [be|]]; cbn [isErr fst snd];
      (split; [|intros Hn; now contradiction Hn]); (split; [discriminate|]);
      intros [[H' _] | (_ & H' & _)]; discriminate.
  - cbn [fst snd]. split; [|auto]. split.
    + intros [= <-]. right. split; [exists raw, limit; auto | auto].
    + intros [[H' _] | (_ & _ & ->)]; [discriminate | reflexivity].
Qed.

Lemma readMemory_error_witness :
  snd (readMemory (setupTestCgroup testDir limitsOnlyFiles) testMonitor)
  = Some (ErrRead (testDir ++ "/memory.current")).
Proof.
  apply (proj2 (proj1 (readMemory_error (setupTestCgroup testDir limitsOnlyFiles)
                         testMonitor (ErrRead (testDir ++ "/memory.current"))))).
  right. split; [|split; [computed | reflexivity]].
  exists "2147483648", 2147483648. split; computed.
Defined.

(** ** The session state along the calls *)

Lemma readCPU_no_baseline_unchanged (fs : FS) (now : Time) (m : Monitor) :
  hasBaseline m = false ->
  hasBaseline (snd (readCPU fs now m)) = false ->
  snd (readCPU fs now m) = m.
Proof.
  intros Hb.
  by_guards fs now m; try reflexivity.
  destruct (fs !! (cgroupPath m ++ "/cpu.stat")); [|reflexivity].
  rewrite Hb. cbn [negb snd hasBaseline]. discriminate.
Qed.

(** X14. As long as [hasBaseline] is false the monitor is the one that was
    constructed: calls that take no sample change no field, and the call
    that stores the first sample is the one that sets the flag. *)
Theorem runCPU_unchanged_until_baseline (m0 : Monitor) (calls : list (FS * Time)) :
  hasBaseline m0 = false ->
  hasBaseline (runCPU m0 calls) = false ->
  runCPU m0 calls = m0.
Proof.
  revert m0. induction calls as [|[fs now] rest IH]; intros m0 H0 Hrun; [reflexivity|].
  cbn [runCPU] in *.
  destruct (hasBaseline (snd (readCPU fs now m0))) eqn:H1.
  - rewrite (runCPU_hasBaseline_mono rest _ H1) in Hrun. discriminate.
  - rewrite (readCPU_no_baseline_unchanged fs now m0 H0 H1) in *.
    apply IH; assumption.
Qed.

(** Two calls of [TestNoCPULimit]. *)
Lemma runCPU_unchanged_until_baseline_witness :
  runCPU testMonitor
    [(setupTestCgroup testDir noCPULimitFiles, 1000);
     (setupTestCgroup testDir noCPULimitFiles, 2000)] = testMonitor.
Proof.
  apply runCPU_unchanged_until_baseline; reflexivity.
Defined.

Lemma readCPU_usage_range (fs : FS) (now : Time) (m : Monitor) :
  0 <= lastCPUUsageUsec m < 2 ^ 64 ->
  0 <= lastCPUUsageUsec (snd (readCPU fs now m)) < 2 ^ 64.
Proof.
  intros Hm.
  by_guards fs now m; try exact Hm.
  destruct (fs !! (cgroupPath m ++ "/cpu.stat")) as [rawStat|]; [|exact Hm].
  pose proof (scanUsage_range (Split (TrimSpace rawStat) LF)) as Hr.
  fold (parseCPUStatUsage (TrimSpace rawStat)) in Hr.
  destruct (negb (hasBaseline m)); [exact Hr|].
  destruct (_ <? _); [exact Hr|].
  destruct (_ =? _); [exact Hm | exact Hr].
Qed.

Lemma last_nonempty_default (x : string) (xs : list string) (d d' : string) :
  List.last (x :: xs) d = List.last (x :: xs) d'.
Proof.
  revert x. induction xs as [|y ys IH]; intros x; [reflexivity|].
  change (List.last (x :: y :: ys) d) with (List.last (y :: ys) d).
  change (List.last (x :: y :: ys) d') with (List.last (y :: ys) d').
  apply IH.
Qed.

(** The monitor that [NewMonitor] builds from paths. *)
Lemma NewMonitor_map (paths : list string) :
  NewMonitor (map WithCgroupPath paths)
  = mkMonitor (List.last paths defaultCgroupPath) 0 0 false.
Proof.
  unfold NewMonitor. generalize defaultCgroupPath.
  induction paths as [|p ps IH]; intros d; [reflexivity|].
  cbn [map fold_left]. unfold WithCgroupPath at 2.
  cbn [lastCPUUsageUsec lastCPUSampleTime hasBaseline]. rewrite IH.
  destruct ps as [|x xs]; [reflexivity|].
  change (List.last (p :: x :: xs) d) with (List.last (x :: xs) d).
  rewrite (last_nonempty_default x xs p d). reflexivity.
Qed.

(** X15. [NewMonitor] applies its options in order: the path is the one of
    the last [WithCgroupPath], the default path when there is none, and the
    session state is empty. *)
Theorem NewMonitor_paths (paths : list string) :
  NewMonitor (map WithCgroupPath paths)
  = mkMonitor (List.last paths defaultCgroupPath) 0 0 false.
Proof. exact (NewMonitor_map paths). Qed.

(** X16. The stored usage counter stays an [uint64], and the path stays the
    one of the construction, along any calls of [readCPU] on a monitor that
    [NewMonitor] returned. *)
Theorem runCPU_invariant (paths : list string) (calls : list (FS * Time)) :
  let m := runCPU (NewMonitor (map WithCgroupPath paths)) calls in
  0 <= lastCPUUsageUsec m < 2 ^ 64
  /\ cgroupPath m = List.last paths defaultCgroupPath.
Proof.
  cbv zeta. rewrite NewMonitor_map. split.
  - assert (H0 : 0 <= lastCPUUsageUsec
                      (mkMonitor (List.last paths defaultCgroupPath) 0 0 false) < 2 ^ 64)
      by (cbn; lia).
    revert H0. generalize (mkMonitor (List.last paths defaultCgroupPath) 0 0 false).
    induction calls as [|[fs now] rest IH]; intros m H0; [exact H0|].
    cbn [runCPU]. apply IH, readCPU_usage_range, H0.
  - rewrite runCPU_cgroupPath. reflexivity.
Qed.

(** ** The fixtures *)

Lemma path_ne (dir a b : string) : a <> b -> dir ++ a <> dir ++ b.
Proof.
  intros Hab Heq. apply Hab. revert Heq.
  induction dir as [|c r IH]; [exact (fun H => H)|].
  rewrite !append_cons. intros [= H]. apply IH, H.
Qed.

(** X17. [setupTestCgroup] creates the marker file and, of the four files,
    those whose field is not empty, with the field as content: an empty
    field is a file that cannot be read. On the default path the marker
    makes [Available] true. *)
Theorem setupTestCgroup_files (dir : string) (files : testCgroupFiles) :
  let fs := setupTestCgroup dir files in
  let written (content : string) : option string :=
    if String.eqb content EmptyString then None else Some content in
  fs !! (dir ++ "/cgroup.controllers") = Some "cpu memory"
  /\ fs !! (dir ++ "/cpu.max") = written (cpuMax files)
  /\ fs !! (dir ++ "/cpu.stat") = written (cpuStat files)
  /\ fs !! (dir ++ "/memory.max") = written (memoryMax files)
  /\ fs !! (dir ++ "/memory.current") = written (memoryCur files)
  /\ Available (setupTestCgroup defaultCgroupPath files) = true.
Proof.
  assert (Hall : forall d : string,
             let fs := setupTestCgroup d files in
             fs !! (d ++ "/cgroup.controllers") = Some "cpu memory"
             /\ fs !! (d ++ "/cpu.max")
                = (if String.eqb (cpuMax files) EmptyString then None
                   else Some (cpuMax files))
             /\ fs !! (d ++ "/cpu.stat")
                = (if String.eqb (cpuStat files) EmptyString then None
                   else Some (cpuStat files))
             /\ fs !! (d ++ "/memory.max")
                = (if String.eqb (memoryMax files) EmptyString then None
                   else Some (memoryMax files))
             /\ fs !! (d ++ "/memory.current")
                = (if String.eqb (memoryCur files) EmptyString then None
                   else Some (memoryCur files))).
  { intros d. cbv zeta. unfold setupTestCgroup, writeIfSet, writeCgroupFile.
    destruct (String.eqb (cpuMax files) EmptyString),
             (String.eqb (cpuStat files) EmptyString),
             (String.eqb (memoryMax files) EmptyString),
             (String.eqb (memoryCur files) EmptyString);
      repeat split;
      repeat (rewrite lookup_insert_ne by (apply path_ne; discriminate));
      rewrite ?lookup_insert_eq, ?lookup_empty; reflexivity. }
  cbv zeta. destruct (Hall dir) as (H0 & H1 & H2 & H3 & H4).
  repeat (split; [assumption|]).
  unfold Available.
  change (defaultCgroupPath ++ "/" ++ cgroupControllersFile)
    with (defaultCgroupPath ++ "/cgroup.controllers").
  rewrite (proj1 (Hall defaultCgroupPath)). reflexivity.
Qed.

(** [TestMonitor_Stats]: half a core, from the text of the kernel. *)
Lemma readCPU_limit_decimal_witness :
  snd (fst (fst (readCPU
                   (newlineTerminated (setupTestCgroup testDir statsFiles))
                   1000 testMonitor)))
  = div (ofZ 50000) (ofZ 100000).
Proof.
  apply (proj2 (readCPU_limit_decimal
                  (newlineTerminated (setupTestCgroup testDir statsFiles))
                  1000 testMonitor "50000" "100000" true
                  eq_refl eq_refl ltac:(vm_compute; split; reflexivity)
                  ltac:(vm_compute; split; reflexivity)
                  ltac:(vm_compute; reflexivity))).
Defined.

(** X18. The guards of [readCPU] reject a period of 0 only: a [cpu.max]
    whose period is a negative numeral is a valid limit, and the limit that
    [readCPU] returns is the quotient by that negative period. *)
Theorem readCPU_negative_period (fs : FS) (now : Time) (m : Monitor) (q p : string) :
  allDigits q = true -> allDigits p = true ->
  0 < decimalValue q < 2 ^ 63 ->
  0 < decimalValue p <= 2 ^ 63 ->
  fs !! (cgroupPath m ++ "/cpu.max") = Some (q ++ " -" ++ p) ->
  validLimit (q ++ " -" ++ p) (decimalValue q) (- decimalValue p)
  /\ snd (fst (fst (readCPU fs now m)))
     = div (ofZ (decimalValue q)) (ofZ (- decimalValue p)).
Proof.
  intros Hq Hp Hqv Hpv Hmax.
  assert (Hqne : q <> EmptyString) by (intros ->; cbn in Hqv; lia).
  assert (Hpne : p <> EmptyString) by (intros ->; cbn in Hpv; lia).
  assert (Hplain : allPlain (String "-" p) = true).
  { cbn [allPlain]. rewrite (allDigits_allPlain p Hp). reflexivity. }
  assert (Hv : validLimit (q ++ " -" ++ p) (decimalValue q) (- decimalValue p)).
  { exists q, (String "-" p). split; [|split; [|split; [|split; [|split]]]].
    - change (q ++ " -" ++ p) with (q ++ String " " (String "-" p)).
      apply Fields_two_tokens;
        solve [auto using allDigits_allPlain | discriminate | reflexivity].
    - intros ->. vm_compute in Hq. discriminate.
    - apply (proj2 (parseInt64_signed q (decimalValue q))).
      exists false, q. split; [left; auto|].
      split; [exact Hqne|]. split; [exact Hq|]. split; [reflexivity|]. lia.
    - lia.
    - apply (proj2 (parseInt64_signed (String "-" p) (- decimalValue p))).
      exists true, p. split; [right; right; auto|].
      split; [exact Hpne|]. split; [exact Hp|]. split; [reflexivity|]. lia.
    - lia. }
  split; [exact Hv|].
  apply (readCPU_limitCores fs now m _ _ _ Hmax).
  change (q ++ " -" ++ p) with (q ++ String " " (String "-" p)).
  rewrite TrimSpace_two_tokens;
    solve [auto using allDigits_allPlain | discriminate | exact Hv].
Qed.

Lemma readCPU_negative_period_witness :
  snd (fst (fst (readCPU
                   (writeCgroupFile ∅ (testDir ++ "/cpu.max") "100000 -100000")
                   1000 testMonitor)))
  = div (ofZ 100000) (ofZ (- 100000)).
Proof.
  apply (proj2 (readCPU_negative_period
                  (writeCgroupFile ∅ (testDir ++ "/cpu.max") "100000 -100000")
                  1000 testMonitor "100000" "100000"
                  eq_refl eq_refl ltac:(vm_compute; split; reflexivity)
                  ltac:(vm_compute; split; [reflexivity | discriminate])
                  ltac:(vm_compute; reflexivity))).
Defined.

(** X19. With [memory.max] and [memory.current] holding decimal numerals, with
    or without the line feed at their end, [readMemory] returns the bytes and
    the limit they write and [float64(bytes) / float64(limit) * 100]; a
    usage that does not fit 64 bits is a percentage of 0 with the limit, a
    limit that does not fit is no limit. *)
Theorem readMemory_decimal (fs : FS) (m : Monitor) (l u : string) (nl nu : bool) :
  allDigits l = true -> l <> EmptyString ->
  allDigits u = true -> u <> EmptyString ->
  fs !! (cgroupPath m ++ "/memory.max")
    = Some (l ++ (if nl then String LF EmptyString else EmptyString)) ->
  fs !! (cgroupPath m ++ "/memory.current")
    = Some (u ++ (if nu then String LF EmptyString else EmptyString)) ->
  readMemory fs m
  = if decimalValue l <=? maxUint64 then
      if decimalValue u <=? maxUint64 then
        (mul (div (ofZ (decimalValue u)) (ofZ (decimalValue l))) (ofZ 100),
         decimalValue u, decimalValue l, None)
      else (zero, 0, decimalValue l, None)
    else (zero, 0, 0, None).
Proof.
  intros Hl Hlne Hu Hune Hmax Hcur.
  assert (Htrim : forall (d : string) (b : bool),
             allDigits d = true ->
             TrimSpace (d ++ (if b then String LF EmptyString else EmptyString)) = d).
  { intros d b Hd. destruct b.
    - rewrite TrimSpace_snoc_space by reflexivity.
      apply TrimSpace_plain, allDigits_allPlain, Hd.
    - rewrite append_empty_r. apply TrimSpace_plain, allDigits_allPlain, Hd. }
  assert (Hparse : forall d : string,
             allDigits d = true -> d <> EmptyString ->
             parseUint64 d
             = if decimalValue d <=? maxUint64 then (decimalValue d, None)
               else (maxUint64, Some ErrRange)).
  { intros d Hd Hne. unfold parseUint64, ParseUint. destruct d as [|c r]; [contradiction|].
    apply parseUintLoop_digits; [exact Hd | unfold maxUint64; lia]. }
  unfold readMemory, readFile. rewrite Hmax, Hcur. cbv beta iota. cbn [isErr].
  rewrite !Htrim by assumption.
  replace (String.eqb l unlimitedValue) with false
    by (symmetry; apply String.eqb_neq; intros ->; vm_compute in Hl; discriminate).
  rewrite (Hparse l Hl Hlne), (Hparse u Hu Hune).
  destruct (decimalValue l <=? maxUint64); [|reflexivity].
  destruct (decimalValue u <=? maxUint64); reflexivity.
Qed.

(** [TestMonitor_MemoryPercent], from the text of the kernel. *)
Lemma readMemory_decimal_witness :
  readMemory (newlineTerminated (setupTestCgroup testDir cpuPercentFiles)) testMonitor
  = (ofZ 50, 536870912, 1073741824, None).
Proof.
  apply (readMemory_decimal
           (newlineTerminated (setupTestCgroup testDir cpuPercentFiles)) testMonitor
           "1073741824" "536870912" true true
           eq_refl ltac:(discriminate) eq_refl ltac:(discriminate)
           ltac:(vm_compute; reflexivity) ltac:(vm_compute; reflexivity)).
Defined.

(** ** Binary64: the size of the results *)

Lemma digits2_pos_size (p : positive) : digits2_pos p = Pos.size p.
Proof. induction p as [p IH | p IH |]; cbn; now rewrite ?IH. Qed.

Lemma Zdigits2_log2 (m : Z) : 0 < m -> Zdigits2 m = Z.log2 m + 1.
Proof.
  destruct m as [|p|p]; try lia. intros _. cbn [Zdigits2].
  rewrite digits2_pos_size. destruct p; cbn; lia.
Qed.

Lemma Zdigits2_nonneg (m : Z) : 0 <= Zdigits2 m.
Proof. destruct m; cbn; lia. Qed.

Lemma Zdigits2_positive (m : Z) : 0 < m -> 1 <= Zdigits2 m.
Proof. destruct m; cbn; lia. Qed.

Lemma Zdigits2_le (a b : Z) : 0 <= a <= b -> Zdigits2 a <= Zdigits2 b.
Proof.
  intros [Ha Hab]. destruct (Z.eq_dec a 0) as [-> | Hn].
  - cbn. apply Zdigits2_nonneg.
  - rewrite !Zdigits2_log2 by lia. pose proof (Z.log2_le_mono a b Hab). lia.
Qed.

Lemma Zdigits2_succ (a : Z) : 0 <= a -> Zdigits2 (a + 1) <= Zdigits2 a + 1.
Proof.
  intros Ha. destruct (Z.eq_dec a 0) as [-> | Hn]; [vm_compute; discriminate|].
  rewrite !Zdigits2_log2 by lia.
  pose proof (Z.log2_succ_le a). unfold Z.succ in *. lia.
Qed.

Lemma Zdigits2_zero (m : Z) : 0 <= m -> Zdigits2 m = 0 -> m = 0.
Proof. destruct m; cbn; lia. Qed.

Lemma shr_1_digits (s : shr_record) :
  0 <= shr_m s ->
  0 <= shr_m (shr_1 s)
  /\ Zdigits2 (shr_m (shr_1 s)) = Z.max 0 (Zdigits2 (shr_m s) - 1).
Proof.
  destruct s as [m r st]. cbn [shr_m]. intros Hm.
  destruct m as [|[p|p|]|p]; cbn; try lia.
Qed.

Lemma iter_shr_1_digits (p : positive) (s : shr_record) :
  0 <= shr_m s ->
  0 <= shr_m (SpecFloat.iter_pos shr_1 p s)
  /\ Zdigits2 (shr_m (SpecFloat.iter_pos shr_1 p s)) = Z.max 0 (Zdigits2 (shr_m s) - Z.pos p).
Proof.
  revert s. induction p as [p IH | p IH |]; intros s Hs; cbn [SpecFloat.iter_pos].
  - destruct (shr_1_digits s Hs) as [H1 E1].
    destruct (IH _ H1) as [H2 E2]. destruct (IH _ H2) as [H3 E3].
    split; [exact H3|]. rewrite E3, E2, E1. lia.
  - destruct (IH _ Hs) as [H2 E2]. destruct (IH _ H2) as [H3 E3].
    split; [exact H3|]. rewrite E3, E2. lia.
  - apply shr_1_digits, Hs.
Qed.

Lemma shr_record_of_loc_m (m : Z) (l : location) : shr_m (shr_record_of_loc m l) = m.
Proof. destruct l as [|[]]; reflexivity. Qed.

Lemma shr_fexp_spec (m e : Z) (l : location) :
  0 <= m ->
  let '(mrs, e') := shr_fexp prec emax m e l in
  0 <= shr_m mrs
  /\ e' = Z.max e (fexp prec emax (Zdigits2 m + e))
  /\ Zdigits2 (shr_m mrs) = Z.max 0 (Zdigits2 m - (e' - e)).
Proof.
  intros Hm. unfold shr_fexp, shr.
  pose proof (Zdigits2_nonneg m) as Hd.
  destruct (fexp prec emax (Zdigits2 m + e) - e) as [|p|p] eqn:En.
  - rewrite shr_record_of_loc_m. repeat split; lia.
  - pose proof (iter_shr_1_digits p (shr_record_of_loc m l)) as H.
    rewrite shr_record_of_loc_m in H. destruct (H Hm) as [H1 H2].
    split; [exact H1|]. split; [lia|]. rewrite H2. lia.
  - rewrite shr_record_of_loc_m. repeat split; lia.
Qed.

Lemma round_nearest_even_bounds (m : Z) (l : location) :
  m <= round_nearest_even m l <= m + 1.
Proof.
  destruct l as [|[]]; cbn; try lia. destruct (Z.even m); lia.
Qed.

(** What [binary_round_aux] returns on a mantissa that is not negative:
    a zero, or a number of the sign given whose exponent is not below the
    one given, or an infinity when the exponent is too large. *)
Lemma binary_round_aux_spec (s : bool) (mx ex : Z) (lx : location) :
  0 <= mx ->
  let d := Zdigits2 mx in
  match binary_round_aux prec emax s mx ex lx with
  | S754_zero s' => s' = s /\ (mx = 0 \/ (ex < -1074 /\ d + ex - 53 < -1074))
  | S754_finite s' m e =>
      s' = s /\ ex <= e <= emax - prec
      /\ Z.pos (digits2_pos m) + e <= Z.max (d + ex) (-1074) + 1
      /\ (0 < mx -> d + ex <= Z.pos (digits2_pos m) + e)
      /\ (53 <= d -> -1074 <= d + ex - 53 ->
          Z.pos (digits2_pos m) = 53 /\ d + ex - 53 <= e <= d + ex - 52)
  | S754_infinity s' => s' = s /\ (972 <= ex \/ 1024 <= d + ex)
  | S754_nan => False
  end.
Proof.
  intros Hmx d. unfold binary_round_aux.
  pose proof (shr_fexp_spec mx ex lx Hmx) as H1.
  destruct (shr_fexp prec emax mx ex lx) as [mrs' e'].
  destruct H1 as (Hm' & He' & Hd').
  pose proof (round_nearest_even_bounds (shr_m mrs') (loc_of_shr_record mrs')) as Hr.
  set (m1 := round_nearest_even (shr_m mrs') (loc_of_shr_record mrs')) in *.
  assert (Hm1 : 0 <= m1) by lia.
  pose proof (shr_fexp_spec m1 e' loc_Exact Hm1) as H2.
  destruct (shr_fexp prec emax m1 e' loc_Exact) as [mrs'' e''].
  destruct H2 as (Hm'' & He'' & Hd'').
  pose proof (Zdigits2_le (shr_m mrs') m1 ltac:(lia)) as Hle1.
  pose proof (Zdigits2_le m1 (shr_m mrs' + 1) ltac:(lia)) as Hle2.
  pose proof (Zdigits2_succ (shr_m mrs') Hm') as Hsucc.
  pose proof (Zdigits2_nonneg mx) as Hdn.
  pose proof (Zdigits2_positive mx) as Hdp.
  fold d in Hdn, Hdp, Hd', He'.
  unfold fexp, emin, prec, emax in *.
  clearbody m1 d.
  destruct (shr_m mrs'') as [|m|m] eqn:Em; [ | |lia].
  { split; [reflexivity|]. cbn [Zdigits2] in Hd''.
    destruct (Z.eq_dec mx 0) as [Hz|Hz]; [now left|right].
    specialize (Hdp ltac:(lia)).
    remember (Zdigits2 m1) as d1 eqn:E1;
    remember (Zdigits2 (shr_m mrs')) as d0 eqn:E0;
    remember (Zdigits2 (shr_m mrs' + 1)) as ds eqn:Es.
    clear E1 E0 Es. lia. }
  cbn [Zdigits2] in Hd''.
  assert (Hdm : 0 < Z.pos (digits2_pos m)) by lia.
  destruct (e'' <=? 1024 - 53) eqn:Hle;
    [apply Z.leb_le in Hle | apply Z.leb_gt in Hle];
    remember (Zdigits2 m1) as d1 eqn:E1;
    remember (Zdigits2 (shr_m mrs')) as d0 eqn:E0;
    remember (Zdigits2 (shr_m mrs' + 1)) as ds eqn:Es;
    remember (Z.pos (digits2_pos m)) as dm eqn:Edm;
    clear E1 E0 Es Edm.
  - split; [reflexivity|]. split; [lia|]. split; [lia|]. split.
    + intros Hpos. specialize (Hdp Hpos). lia.
    + intros H53 Hn. lia.
  - split; [reflexivity|]. lia.
Qed.

Lemma digits2_pos_iter_xO (d p : positive) :
  Z.pos (digits2_pos (Pos.iter xO p d)) = Z.pos (digits2_pos p) + Z.pos d.
Proof.
  induction d as [|d IH] using Pos.peano_ind.
  - cbn. lia.
  - rewrite Pos.iter_succ. cbn [digits2_pos]. lia.
Qed.

Lemma normal_zeroOrNormal (lo hi : Z) (x : float64) :
  normal lo hi x -> zeroOrNormal lo hi x.
Proof. destruct x; cbn; tauto. Qed.

Lemma zeroOrNormal_finite (lo hi : Z) (x : float64) :
  zeroOrNormal lo hi x -> isFinite x = true.
Proof. destruct x; cbn; try tauto; reflexivity. Qed.

(** [binary_round_aux] on a mantissa of 53 digits or more, in the range of
    the normal numbers. *)
Lemma binary_round_aux_normal (s : bool) (mx ex : Z) (lx : location) (lo hi : Z) :
  0 < mx -> 53 <= Zdigits2 mx ->
  -1074 <= lo -> hi <= 971 ->
  lo <= Zdigits2 mx + ex - 53 -> Zdigits2 mx + ex - 52 <= hi ->
  normal lo hi (binary_round_aux 53 1024 s mx ex lx).
Proof.
  intros Hmx Hd Hlo Hhi H1 H2.
  pose proof (binary_round_aux_spec s mx ex lx ltac:(lia)) as H.
  cbv zeta in H. unfold prec, emax in H.
  destruct (binary_round_aux 53 1024 s mx ex lx); cbn; lia.
Qed.

Lemma binary_round_normal (s : bool) (p : positive) :
  Z.pos p < 2 ^ 64 -> normal (-52) 12 (binary_round 53 1024 s p 0).
Proof.
  intros Hp. unfold binary_round, shl_align.
  assert (Hd : 1 <= Z.pos (digits2_pos p) <= 64).
  { pose proof (Zdigits2_log2 (Z.pos p) ltac:(lia)) as H. cbn [Zdigits2] in H.
    pose proof (Z.log2_lt_pow2 (Z.pos p) 64 ltac:(lia)) as [H1 _].
    specialize (H1 Hp). pose proof (Z.log2_nonneg (Z.pos p)). lia. }
  unfold fexp, emin.
  remember (Z.pos (digits2_pos p)) as d eqn:Ed.
  destruct (Z.max (d + 0 - 53) (3 - 1024 - 53) - 0) as [|k|k] eqn:Ek.
  - apply binary_round_aux_normal; cbn [Zdigits2]; lia.
  - apply binary_round_aux_normal; cbn [Zdigits2]; lia.
  - apply binary_round_aux_normal; cbn [Zdigits2];
      rewrite ?digits2_pos_iter_xO; lia.
Qed.

(** The conversion of an integer of 64 bits that is not zero is a normal
    number. *)
Lemma ofZ_normal (n : Z) : n <> 0 -> - 2 ^ 64 < n < 2 ^ 64 -> normal (-52) 12 (ofZ n).
Proof.
  intros Hn Hr. unfold ofZ, binary_normalize, prec, emax.
  destruct n as [|p|p]; [contradiction| |]; apply binary_round_normal; lia.
Qed.

Lemma ofZ_zeroOrNormal (n : Z) : - 2 ^ 64 < n < 2 ^ 64 -> zeroOrNormal (-52) 12 (ofZ n).
Proof.
  intros Hr. destruct (Z.eq_dec n 0) as [-> | Hn]; [exact I|].
  apply normal_zeroOrNormal, ofZ_normal; assumption.
Qed.

Lemma Zdigits2_shiftl (m k : Z) :
  0 < m -> 0 <= k -> Zdigits2 (Z.shiftl m k) = Zdigits2 m + k.
Proof.
  intros Hm Hk. rewrite Z.shiftl_mul_pow2 by exact Hk.
  assert (0 < 2 ^ k) by (apply Z.pow_pos_nonneg; lia).
  rewrite !Zdigits2_log2 by nia.
  rewrite Z.log2_mul_pow2 by lia. lia.
Qed.

Lemma Zdigits2_lt_pow2 (m k : Z) : 0 < m -> 0 <= k -> (Zdigits2 m <= k <-> m < 2 ^ k).
Proof.
  intros Hm Hk. rewrite Zdigits2_log2 by exact Hm.
  pose proof (Z.log2_lt_pow2 m k Hm). lia.
Qed.

(** The quotient of a mantissa of 106 digits by one of 53 has 53 or 54. *)
Lemma Zdigits2_quotient (a b : Z) :
  0 < a -> 0 < b -> Zdigits2 a = 106 -> Zdigits2 b = 53 ->
  0 < a / b /\ 53 <= Zdigits2 (a / b) <= 54.
Proof.
  intros Ha Hb Da Db.
  assert (Ha1 : 2 ^ 105 <= a).
  { destruct (Z.lt_ge_cases a (2 ^ 105)) as [Hlt|]; [|assumption].
    apply (Zdigits2_lt_pow2 a 105 Ha ltac:(lia)) in Hlt. lia. }
  assert (Ha2 : a < 2 ^ 106) by (apply (Zdigits2_lt_pow2 a 106 Ha ltac:(lia)); lia).
  assert (Hb1 : 2 ^ 52 <= b).
  { destruct (Z.lt_ge_cases b (2 ^ 52)) as [Hlt|]; [|assumption].
    apply (Zdigits2_lt_pow2 b 52 Hb ltac:(lia)) in Hlt. lia. }
  assert (Hb2 : b < 2 ^ 53) by (apply (Zdigits2_lt_pow2 b 53 Hb ltac:(lia)); lia).
  assert (Hq1 : 2 ^ 52 <= a / b).
  { apply Z.div_le_lower_bound; [lia|].
    change (2 ^ 105) with (2 ^ 53 * 2 ^ 52) in Ha1. nia. }
  assert (Hq2 : a / b < 2 ^ 54).
  { apply Z.div_lt_upper_bound; [lia|].
    change (2 ^ 106) with (2 ^ 52 * 2 ^ 54) in Ha2. nia. }
  split; [lia|]. split.
  - destruct (Z.le_gt_cases 53 (Zdigits2 (a / b))) as [|Hlt]; [assumption|].
    assert (Zdigits2 (a / b) <= 52) by lia.
    apply (Zdigits2_lt_pow2 (a / b) 52 ltac:(lia) ltac:(lia)) in H. lia.
  - apply (Zdigits2_lt_pow2 (a / b) 54 ltac:(lia) ltac:(lia)). exact Hq2.
Qed.

(** The quotient of two normal numbers is a normal number, in the range of
    the exponents where nothing underflows or overflows. *)
Lemma div_normal (lo1 hi1 lo2 hi2 : Z) (x y : float64) :
  normal lo1 hi1 x -> normal lo2 hi2 y ->
  -1074 <= lo1 - hi2 - 53 -> hi1 - lo2 - 51 <= 971 ->
  normal (lo1 - hi2 - 53) (hi1 - lo2 - 51) (div x y).
Proof.
  destruct x as [| | |sx mx ex]; try contradiction.
  destruct y as [| | |sy my ey]; try contradiction.
  intros [Dx Hx] [Dy Hy] Hlo Hhi.
  unfold div, SFdiv, SFdiv_core_binary, prec, emax. cbn [Zdigits2].
  rewrite Dx, Dy. unfold fexp, emin.
  replace (Z.min (Z.max (53 + ex - (53 + ey) - 53) (3 - 1024 - 53)) (ex - ey))
    with (ex - ey - 53) by lia.
  replace (ex - ey - (ex - ey - 53)) with 53 by lia.
  pose proof (Zdigits2_shiftl (Z.pos mx) 53 ltac:(lia) ltac:(lia)) as Ds.
  cbn [Zdigits2] in Ds. rewrite Dx in Ds.
  assert (Hs : 0 < Z.shiftl (Z.pos mx) 53).
  { rewrite Z.shiftl_mul_pow2 by lia. lia. }
  pose proof (Zdigits2_quotient (Z.shiftl (Z.pos mx) 53) (Z.pos my) Hs ltac:(lia)
                ltac:(lia) ltac:(cbn [Zdigits2]; lia)) as [Hq Dq].
  unfold Z.div in Hq, Dq.
  destruct (Z.div_eucl (Z.shiftl (Z.pos mx) 53) (Z.pos my)) as [q r].
  cbn [fst] in Hq, Dq.
  apply binary_round_aux_normal; lia.
Qed.

Lemma div_zero_normal (lo hi : Z) (s : bool) (y : float64) :
  normal lo hi y -> exists s', div (S754_zero s) y = S754_zero s'.
Proof.
  destruct y as [| | |sy my ey]; try contradiction. intros _.
  exists (xorb s sy). reflexivity.
Qed.

Lemma div_zeroOrNormal (lo1 hi1 lo2 hi2 : Z) (x y : float64) :
  zeroOrNormal lo1 hi1 x -> normal lo2 hi2 y ->
  -1074 <= lo1 - hi2 - 53 -> hi1 - lo2 - 51 <= 971 ->
  zeroOrNormal (lo1 - hi2 - 53) (hi1 - lo2 - 51) (div x y).
Proof.
  intros Hx Hy Hlo Hhi. destruct x as [sx| | |sx mx ex]; try contradiction.
  - destruct (div_zero_normal lo2 hi2 sx y Hy) as [s' ->]. exact I.
  - apply normal_zeroOrNormal. now apply (div_normal lo1 hi1 lo2 hi2).
Qed.

(** The product of two normal numbers, in the range where nothing
    underflows or overflows. *)
Lemma mul_normal (lo1 hi1 lo2 hi2 : Z) (x y : float64) :
  normal lo1 hi1 x -> normal lo2 hi2 y ->
  -1074 <= lo1 + lo2 + 52 -> hi1 + hi2 + 54 <= 971 ->
  normal (lo1 + lo2 + 52) (hi1 + hi2 + 54) (mul x y).
Proof.
  destruct x as [| | |sx mx ex]; try contradiction.
  destruct y as [| | |sy my ey]; try contradiction.
  intros [Dx Hx] [Dy Hy] Hlo Hhi.
  unfold mul, SFmul, prec, emax.
  assert (Dxy : 105 <= Zdigits2 (Z.pos (mx * my)) <= 106).
  { rewrite Pos2Z.inj_mul.
    pose proof (Zdigits2_log2 (Z.pos mx) ltac:(lia)) as Lx.
    pose proof (Zdigits2_log2 (Z.pos my) ltac:(lia)) as Ly.
    cbn [Zdigits2] in Lx, Ly.
    rewrite Zdigits2_log2 by lia.
    pose proof (Z.log2_mul_below (Z.pos mx) (Z.pos my) ltac:(lia) ltac:(lia)).
    pose proof (Z.log2_mul_above (Z.pos mx) (Z.pos my) ltac:(lia) ltac:(lia)).
    lia. }
  apply binary_round_aux_normal; lia.
Qed.

Lemma mul_zeroOrNormal (lo1 hi1 lo2 hi2 : Z) (x y : float64) :
  zeroOrNormal lo1 hi1 x -> normal lo2 hi2 y ->
  -1074 <= lo1 + lo2 + 52 -> hi1 + hi2 + 54 <= 971 ->
  zeroOrNormal (lo1 + lo2 + 52) (hi1 + hi2 + 54) (mul x y).
Proof.
  intros Hx Hy Hlo Hhi. destruct x as [sx| | |sx mx ex]; try contradiction.
  - destruct y as [| | |sy my ey]; try contradiction. exact I.
  - apply normal_zeroOrNormal. now apply (mul_normal lo1 hi1 lo2 hi2).
Qed.

Lemma hundred_normal : normal (-46) (-46) (ofZ 100).
Proof. vm_compute. split; [reflexivity|]. split; discriminate. Qed.

(** ** The percentages are finite, but for the divisions by zero *)

Lemma parseInt64_range (s : string) (v : Z) :
  parseInt64 s = (v, None) -> - 2 ^ 63 <= v < 2 ^ 63.
Proof.
  intros H. apply (proj1 (parseInt64_signed s v)) in H.
  destruct H as (neg & d & _ & _ & _ & _ & Hr). exact Hr.
Qed.

Lemma validLimit_normal (cpuMax : string) (quota period : Z) :
  validLimit cpuMax quota period ->
  normal (-117) 13 (div (ofZ quota) (ofZ period)).
Proof.
  intros (q & p & _ & _ & Hq & Hpos & Hp & Hne).
  apply parseInt64_range in Hq. apply parseInt64_range in Hp.
  apply (div_normal (-52) 12 (-52) 12); try lia; apply ofZ_normal; lia.
Qed.

Lemma Microseconds_Sub_range (t u : Time) :
  - 2 ^ 64 < Microseconds (Sub t u) < 2 ^ 64.
Proof.
  unfold Microseconds, Sub, minDuration, maxDuration.
  assert (H : forall d, - 2 ^ 63 <= d <= 2 ^ 63 - 1 -> - 2 ^ 64 < Z.quot d 1000 < 2 ^ 64).
  { intros d Hd. pose proof (Z.quot_rem' d 1000).
    pose proof (Z.rem_bound_abs d 1000 ltac:(lia)). lia. }
  destruct (t - u <? - 2 ^ 63) eqn:H1; [apply H; lia|].
  destruct (2 ^ 63 - 1 <? t - u) eqn:H2; [apply H; lia|].
  apply Z.ltb_ge in H1. apply Z.ltb_ge in H2. apply H. lia.
Qed.

Lemma subUint64_range (a b : Z) : - 2 ^ 64 < subUint64 a b < 2 ^ 64.
Proof.
  unfold subUint64. pose proof (Z.mod_pos_bound (a - b) (2 ^ 64) ltac:(lia)). lia.
Qed.

(** X20. A valid limit gives a limit in cores that is finite and not zero:
    with [cpu.max] read, the limit that [readCPU] returns is 0 exactly when
    the payload holds no valid limit. *)
Theorem readCPU_limit_zero_iff (fs : FS) (now : Time) (m : Monitor) (raw : string) :
  fs !! (cgroupPath m ++ "/cpu.max") = Some raw ->
  isFinite (snd (fst (fst (readCPU fs now m)))) = true
  /\ (snd (fst (fst (readCPU fs now m))) = zero
      <-> ~ (exists quota period : Z, validLimit (TrimSpace raw) quota period)).
Proof.
  intros Hmax.
  destruct (readCPU_cases fs m) as [H | [(raw' & H & Hno) | (raw' & quota & period & H & Hv)]].
  - congruence.
  - assert (raw' = raw) by congruence. subst raw'.
    rewrite (readCPU_invalid fs now m raw H Hno). cbn [fst snd].
    split; [reflexivity|]. split; auto.
  - assert (raw' = raw) by congruence. subst raw'.
    rewrite (readCPU_limitCores fs now m raw quota period H Hv).
    pose proof (validLimit_normal _ _ _ Hv) as Hn.
    destruct (div (ofZ quota) (ofZ period)) as [| | |sl ml el]; try contradiction.
    split; [reflexivity|]. split; [discriminate|].
    intros Hno. exfalso. apply Hno. exists quota, period. exact Hv.
Qed.

Lemma readCPU_limit_zero_iff_witness :
  snd (fst (fst (readCPU (setupTestCgroup testDir noCPULimitFiles) 1000 testMonitor)))
  = zero.
Proof.
  apply (proj2 (proj2 (readCPU_limit_zero_iff
                         (setupTestCgroup testDir noCPULimitFiles) 1000 testMonitor
                         "max 100000" ltac:(vm_compute; reflexivity)))).
  intros (quota & period & q & p & HF & Hq & _).
  vm_compute in HF. injection HF as <- <-. apply Hq. reflexivity.
Defined.

(** X21. The percentage of [readMemory] is an infinity or a NaN exactly when
    [memory.max] parses to 0 and [memory.current] parses: with any other
    limit, and on every return before the division, it is finite. *)
Theorem readMemory_percent_finite_iff (fs : FS) (m : Monitor) :
  isFinite (fst (fst (fst (readMemory fs m)))) = false
  <-> exists (rawMax rawCur : string) (U : Z),
        fs !! (cgroupPath m ++ "/memory.max") = Some rawMax
        /\ parseUint64 (TrimSpace rawMax) = (0, None)
        /\ fs !! (cgroupPath m ++ "/memory.current") = Some rawCur
        /\ parseUint64 (TrimSpace rawCur) = (U, None).
Proof.
  split.
  - unfold readMemory, readFile.
    destruct (fs !! (cgroupPath m ++ "/memory.max")) as [rawMax|] eqn:Hmax;
      cbv beta iota; cbn [isErr]; [|discriminate].
    destruct (String.eqb (TrimSpace rawMax) unlimitedValue); [discriminate|].
    destruct (parseUint64 (TrimSpace rawMax)) as [L [e|]] eqn:HL; cbn [isErr];
      [discriminate|].
    destruct (fs !! (cgroupPath m ++ "/memory.current")) as [rawCur|] eqn:Hcur;
      cbv beta iota; cbn [isErr]; [|discriminate].
    destruct (parseUint64 (TrimSpace rawCur)) as [U [e|]] eqn:HU; cbn [isErr fst];
      [discriminate|].
    intros Hnf. exists rawMax, rawCur, U.
    destruct (Z.eq_dec L 0) as [-> | HL0]; [auto|].
    exfalso.
    pose proof (parseUint64_range _ _ HL) as RL.
    pose proof (parseUint64_range _ _ HU) as RU.
    pose proof (mul_zeroOrNormal (-117) 13 (-46) (-46)
                  (div (ofZ U) (ofZ L)) (ofZ 100)
                  (div_zeroOrNormal (-52) 12 (-52) 12 (ofZ U) (ofZ L)
                     (ofZ_zeroOrNormal U ltac:(lia)) (ofZ_normal L HL0 ltac:(lia))
                     ltac:(lia) ltac:(lia))
                  hundred_normal ltac:(lia) ltac:(lia)) as Hfin.
    apply zeroOrNormal_finite in Hfin. congruence.
  - intros (rawMax & rawCur & U & Hmax & HL & Hcur & HU).
    exact (readMemory_zero_limit fs m rawMax rawCur U Hmax HL Hcur HU).
Qed.

Lemma readMemory_percent_finite_iff_witness :
  isFinite (fst (fst (fst (readMemory (setupTestCgroup testDir zeroMemoryLimitFiles)
                             testMonitor)))) = false.
Proof.
  apply (proj2 (readMemory_percent_finite_iff
                  (setupTestCgroup testDir zeroMemoryLimitFiles) testMonitor)).
  exists "0", "1073741824", 1073741824. repeat split; vm_compute; reflexivity.
Defined.

(** X22. The percentage of [readCPU] is an infinity or a NaN exactly when the
    call computes it on an elapsed time that is not zero and is below one
    microsecond: the guard is on the nanoseconds, the divisor is the elapsed
    time in whole microseconds. In every other call it is finite. *)
Theorem readCPU_percent_finite_iff (fs : FS) (now : Time) (m : Monitor) :
  isFinite (fst (fst (fst (readCPU fs now m)))) = false
  <-> hasBaseline m = true
      /\ Sub now (lastCPUSampleTime m) <> 0
      /\ Microseconds (Sub now (lastCPUSampleTime m)) = 0
      /\ exists (rawMax rawStat : string) (quota period : Z),
           fs !! (cgroupPath m ++ "/cpu.max") = Some rawMax
           /\ validLimit (TrimSpace rawMax) quota period
           /\ fs !! (cgroupPath m ++ "/cpu.stat") = Some rawStat
           /\ lastCPUUsageUsec m <= parseCPUStatUsage (TrimSpace rawStat).
Proof.
  split.
  - destruct (readCPU_cases fs m)
      as [H | [(raw & H & Hno) | (raw & quota & period & H & Hv)]].
    + rewrite (readCPU_unreadable fs now m H). discriminate.
    + rewrite (readCPU_invalid fs now m raw H Hno). discriminate.
    + rewrite (readCPU_valid fs now m raw quota period H Hv). cbv zeta.
      destruct (fs !! (cgroupPath m ++ "/cpu.stat")) as [rawStat|] eqn:Hs;
        [|discriminate].
      destruct (hasBaseline m); cbn [negb]; [|discriminate].
      destruct (_ <? _) eqn:Hlt; [discriminate|].
      destruct (_ =? _) eqn:Hz; [discriminate|].
      cbn [fst]. intros Hnf.
      apply Z.ltb_ge in Hlt. apply Z.eqb_neq in Hz.
      split; [reflexivity|]. split; [exact Hz|]. split.
      * destruct (Z.eq_dec (Microseconds (Sub now (lastCPUSampleTime m))) 0)
          as [|Hus]; [assumption|].
        exfalso.
        pose proof (validLimit_normal _ _ _ Hv) as Hlim.
        pose proof (div_zeroOrNormal (-52) 12 (-52) 12 _ _
                      (ofZ_zeroOrNormal _
                         (subUint64_range (parseCPUStatUsage (TrimSpace rawStat))
                            (lastCPUUsageUsec m)))
                      (ofZ_normal _ Hus
                         (Microseconds_Sub_range now (lastCPUSampleTime m)))
                      ltac:(lia) ltac:(lia)) as Hcores.
        pose proof (div_zeroOrNormal _ _ _ _ _ _ Hcores Hlim ltac:(lia) ltac:(lia))
          as Hq.
        pose proof (mul_zeroOrNormal _ _ _ _ _ _ Hq hundred_normal
                      ltac:(lia) ltac:(lia)) as Hfin.
        apply zeroOrNormal_finite in Hfin. congruence.
      * exists raw, rawStat, quota, period. auto.
  - intros (Hb & Hnz & Hus & rawMax & rawStat & quota & period & Hmax & Hv & Hs & Hle).
    exact (readCPU_sub_microsecond fs now m rawMax rawStat quota period
             Hmax Hv Hs Hb Hle Hnz Hus).
Qed.

Lemma readCPU_percent_finite_iff_witness :
  isFinite (fst (fst (fst (readCPU
                             (writeCgroupFile (setupTestCgroup testDir cpuPercentFiles)
                                (testDir ++ "/cpu.stat") cpuPercentStat)
                             1500 (mkMonitor testDir 1000000 1000 true))))) = false.
Proof.
  apply (proj2 (readCPU_percent_finite_iff _ 1500 (mkMonitor testDir 1000000 1000 true))).
  split; [reflexivity|]. split; [vm_compute; discriminate|]. split; [reflexivity|].
  exists "100000 100000", "usage_usec 1100000", 100000, 100000.
  split; [computed|]. split; [valid_limit "100000" "100000"|].
  split; [computed | vm_compute; discriminate].
Defined.

(** X23. An idle interval reads zero: with a baseline, a valid limit, the
    usage counter where it was and at least one microsecond elapsed, the
    percentage of [readCPU] is a zero. *)
Theorem readCPU_idle (fs : FS) (now : Time) (m : Monitor)
    (rawMax rawStat : string) (quota period : Z) :
  fs !! (cgroupPath m ++ "/cpu.max") = Some rawMax ->
  validLimit (TrimSpace rawMax) quota period ->
  fs !! (cgroupPath m ++ "/cpu.stat") = Some rawStat ->
  hasBaseline m = true ->
  parseCPUStatUsage (TrimSpace rawStat) = lastCPUUsageUsec m ->
  Microseconds (Sub now (lastCPUSampleTime m)) <> 0 ->
  exists s : bool, fst (fst (fst (readCPU fs now m))) = S754_zero s.
Proof.
  intros Hmax Hv Hs Hb Hu Hus.
  assert (Hnz : Sub now (lastCPUSampleTime m) <> 0).
  { intros Hz. rewrite Hz in Hus. now apply Hus. }
  rewrite (readCPU_valid fs now m rawMax quota period Hmax Hv), Hs. cbv zeta.
  rewrite Hb, Hu. cbn [negb]. rewrite Z.ltb_irrefl.
  apply Z.eqb_neq in Hnz. rewrite Hnz. cbn [fst].
  unfold subUint64. rewrite Z.sub_diag. change (0 mod 2 ^ 64) with 0.
  change (ofZ 0) with (S754_zero false).
  pose proof (ofZ_normal _ Hus (Microseconds_Sub_range now (lastCPUSampleTime m))) as He.
  destruct (div_zero_normal _ _ false _ He) as [s1 ->].
  destruct (div_zero_normal _ _ s1 _ (validLimit_normal _ _ _ Hv)) as [s2 ->].
  exists (xorb s2 false). reflexivity.
Qed.

(** [BenchmarkCPUPercent]: the files do not change between the calls. *)
Lemma readCPU_idle_witness :
  exists s : bool,
    fst (fst (fst (readCPU (setupTestCgroup testDir cpuPercentFiles) 10001000
                     (mkMonitor testDir 1000000 1000 true)))) = S754_zero s.
Proof.
  apply (readCPU_idle _ 10001000 (mkMonitor testDir 1000000 1000 true)
           "100000 100000" "usage_usec 1000000" 100000 100000).
  - computed.
  - valid_limit "100000" "100000".
  - computed.
  - reflexivity.
  - computed.
  - vm_compute. discriminate.
Defined.
